(** * Fundraising keeper: auction lifecycle (x/fundraising/keeper/auction.go)

    A shallow embedding of the keeper methods of [auction.go] and the
    properties of the auction lifecycle that follow from them.

    Conventions.
    - [uint64], [uint32] and [int64] values are integers ([Z]); unsigned
      arithmetic is written with its wrap-around.
    - A [time.Time] is the number of nanoseconds since the Unix epoch.  Block
      times are UTC, where one calendar day is exactly 24 hours.
    - [sdk.Dec] is its underlying integer, the value scaled by 10^18.
    - Account addresses are their bech32 text; the addresses an auction stores
      are well formed, so reading one back does not fail.
    - Coins that the module stores or the bank reports have valid denominations
      and amounts that are not negative; the panics of the coin constructors on
      other values are not part of the model.
    - A keeper method is a function of the store ([State]); it returns a value
      and the new store, or panics.  An [error] result is an ordinary value
      ([option Error], [None] for [nil]): the store written before an error is
      returned stays written.
    - A method that mutates the auction it received through its pointer returns
      the updated auction. *)

From stdpp Require Import base option list sorting gmap strings pretty.
From Stdlib Require Import ZArith Lia.

Local Open Scope Z_scope.

(** ** cosmos-sdk values *)

(** [time.Time], in nanoseconds since the Unix epoch. *)
Definition Time : Type := Z.

(** The length of a UTC day. *)
Definition nanosPerDay : Z := 86400 * 1000000000.

(** [t.After(u)] *)
Definition After (t u : Time) : bool := u <? t.

(** [t.AddDate(0, 0, days)] for a UTC time. *)
Definition AddDate_days (t : Time) (days : Z) : Time := t + days * nanosPerDay.

(** [sdk.Int]: [None] is the nil integer. *)
Definition Int : Type := option Z.

(** [i.IsNil()] *)
Definition IsNil (i : Int) : bool :=
  match i with None => true | Some _ => false end.

(** [i.IsPositive()]; callers test [IsNil] first. *)
Definition IsPositive (i : Int) : bool :=
  match i with None => false | Some v => 0 <? v end.

(** [sdk.Dec], a decimal with 18 fractional digits, as its scaled integer. *)
Definition Dec : Type := Z.

Definition precisionReuse : Z := 10 ^ 18.
Definition fivePrecision : Z := precisionReuse / 2.

(** [sdk.ZeroDec()], [sdk.OneDec()], [sdk.NewDec(i)], [d.Sub(d2)], [d.GTE(d2)] *)
Definition ZeroDec : Dec := 0.
Definition OneDec : Dec := precisionReuse.
Definition NewDec (i : Z) : Dec := i * precisionReuse.
Definition DecSub (d d2 : Dec) : Dec := d - d2.
Definition DecGTE (d d2 : Dec) : bool := d2 <=? d.

(** [chopPrecisionAndRound]: remove 18 digits with banker's rounding. *)
Definition chopPrecisionAndRound (d : Z) : Z :=
  let chop (x : Z) :=
    let quo := Z.quot x precisionReuse in
    let rem := Z.rem x precisionReuse in
    if rem =? 0 then quo
    else match rem ?= fivePrecision with
         | Lt => quo
         | Gt => quo + 1
         | Eq => if Z.even quo then quo else quo + 1
         end in
  if d <? 0 then - chop (- d) else chop d.

(** [d.Quo(d2)]; [None] is the division-by-zero panic of [big.Int.Quo]. *)
Definition DecQuo (d d2 : Dec) : option Dec :=
  if d2 =? 0 then None
  else Some (chopPrecisionAndRound (Z.quot (d * precisionReuse * precisionReuse) d2)).

(** [sdk.Coin] and [sdk.Coins] *)
Record Coin := mkCoin { Denom : string; Amount : Z }.

Definition Coins : Type := list Coin.

Definition NewCoin (denom : string) (amount : Z) : Coin := mkCoin denom amount.

(** [sdk.NewCoins(c)] of one coin: zero coins are removed. *)
Definition NewCoins (c : Coin) : Coins :=
  if Amount c =? 0 then [] else [c].

(** [coins.AmountOf(denom)]: zero when the denomination is absent. *)
Fixpoint AmountOf (coins : Coins) (denom : string) : Z :=
  match coins with
  | [] => 0
  | c :: rest => if String.eqb (Denom c) denom then Amount c else AmountOf rest denom
  end.

(** ** Errors *)

(** The argument of a formatted wrap. *)
Inductive FmtArg :=
| ArgUint (n : Z)
| ArgString (s : string).

(** The registered errors of [sdkerrors] and of the module that auction.go
    returns, errors of the runtime, and their wraps ([sdkerrors.Wrap],
    [sdkerrors.Wrapf]). *)
Inductive Error :=
| ErrInvalidRequest
| ErrNotFound
| ErrUnauthorized
| ErrInsufficientFunds
| ErrInvalidAddress
| ErrInvalidAuctionStatus
| ErrEmptyAllowedBidders
| ErrInvalidMaxBidAmount
| ErrRuntime (what : string)
| Wrap (err : Error) (description : string)
| Wrapf (err : Error) (format : string) (arg : FmtArg).

(** The registered error at the root of a chain of wraps. *)
Fixpoint Cause (e : Error) : Error :=
  match e with
  | Wrap e' _ => Cause e'
  | Wrapf e' _ _ => Cause e'
  | _ => e
  end.

(** ** Module types (x/fundraising/types) *)

Inductive AuctionType := AuctionTypeNil | AuctionTypeFixedPrice | AuctionTypeBatch.

Inductive AuctionStatus :=
| AuctionStatusNil
| AuctionStatusStandBy
| AuctionStatusStarted
| AuctionStatusVesting
| AuctionStatusFinished
| AuctionStatusCancelled.

#[global] Instance AuctionStatus_eq_dec : EqDecision AuctionStatus.
Proof. solve_decision. Defined.

(** An entry of the list of allowed bidders: a bidder and its cap. *)
Record AllowedBidder := mkAllowedBidder {
  Bidder : string;
  MaxBidAmount : Int
}.

Record VestingSchedule := mkVestingSchedule {
  vs_ReleaseTime : Time;
  vs_Weight : Dec
}.

(** [types.BaseAuction], in the order of the arguments of [NewBaseAuction]. *)
Record BaseAuction := mkBaseAuction {
  Id : Z;
  Type_ : AuctionType;
  AllowedBidders : list AllowedBidder;
  Auctioneer : string;
  SellingReserveAddress_ : string;
  PayingReserveAddress_ : string;
  StartPrice : Dec;
  SellingCoin : Coin;
  PayingCoinDenom : string;
  VestingReserveAddress_ : string;
  VestingSchedules : list VestingSchedule;
  RemainingSellingCoin : Coin;
  StartTime : Time;
  EndTimes : list Time;
  Status : AuctionStatus
}.

Definition NewBaseAuction := mkBaseAuction.

(** [types.BatchAuction]: the base auction and the fields of a batch. *)
Record BatchAuction := mkBatchAuction {
  BaseAuction_ : BaseAuction;
  MinBidPrice : Dec;
  MatchedPrice : Dec;
  MaxExtendedRound : Z;
  ExtendedRoundRate : Dec
}.

Definition NewBatchAuction := mkBatchAuction.

(** [types.AuctionI]: the two implementations of the interface. *)
Inductive AuctionI :=
| FixedPriceAuction (ba : BaseAuction)
| BatchAuctionI (ba : BatchAuction).

Definition NewFixedPriceAuction (ba : BaseAuction) : AuctionI := FixedPriceAuction ba.

(** The base auction embedded in either kind. *)
Definition base (a : AuctionI) : BaseAuction :=
  match a with
  | FixedPriceAuction b => b
  | BatchAuctionI b => BaseAuction_ b
  end.

(** An update of the embedded base auction. *)
Definition with_base (f : BaseAuction -> BaseAuction) (a : AuctionI) : AuctionI :=
  match a with
  | FixedPriceAuction b => FixedPriceAuction (f b)
  | BatchAuctionI b =>
      BatchAuctionI (mkBatchAuction (f (BaseAuction_ b)) (MinBidPrice b) (MatchedPrice b)
                       (MaxExtendedRound b) (ExtendedRoundRate b))
  end.

(** The getters of [AuctionI]. *)
Definition GetId (a : AuctionI) : Z := Id (base a).
Definition GetAuctioneer (a : AuctionI) : string := Auctioneer (base a).
Definition GetSellingReserveAddress (a : AuctionI) : string := SellingReserveAddress_ (base a).
Definition GetPayingReserveAddress (a : AuctionI) : string := PayingReserveAddress_ (base a).
Definition GetVestingReserveAddress (a : AuctionI) : string := VestingReserveAddress_ (base a).
Definition GetStartPrice (a : AuctionI) : Dec := StartPrice (base a).
Definition GetSellingCoin (a : AuctionI) : Coin := SellingCoin (base a).
Definition GetPayingCoinDenom (a : AuctionI) : string := PayingCoinDenom (base a).
Definition GetRemainingSellingCoin (a : AuctionI) : Coin := RemainingSellingCoin (base a).
Definition GetStartTime (a : AuctionI) : Time := StartTime (base a).
Definition GetEndTimes (a : AuctionI) : list Time := EndTimes (base a).
Definition GetStatus (a : AuctionI) : AuctionStatus := Status (base a).
Definition GetAllowedBidders (a : AuctionI) : list AllowedBidder := AllowedBidders (base a).

(** The setters of the base auction: one field changes. *)
Definition BaseSetAllowedBidders (b : BaseAuction) (bidders : list AllowedBidder) : BaseAuction :=
  mkBaseAuction (Id b) (Type_ b) bidders (Auctioneer b) (SellingReserveAddress_ b)
    (PayingReserveAddress_ b) (StartPrice b) (SellingCoin b) (PayingCoinDenom b)
    (VestingReserveAddress_ b) (VestingSchedules b) (RemainingSellingCoin b) (StartTime b)
    (EndTimes b) (Status b).

Definition BaseSetRemainingSellingCoin (b : BaseAuction) (coin : Coin) : BaseAuction :=
  mkBaseAuction (Id b) (Type_ b) (AllowedBidders b) (Auctioneer b) (SellingReserveAddress_ b)
    (PayingReserveAddress_ b) (StartPrice b) (SellingCoin b) (PayingCoinDenom b)
    (VestingReserveAddress_ b) (VestingSchedules b) coin (StartTime b)
    (EndTimes b) (Status b).

Definition BaseSetEndTimes (b : BaseAuction) (ts : list Time) : BaseAuction :=
  mkBaseAuction (Id b) (Type_ b) (AllowedBidders b) (Auctioneer b) (SellingReserveAddress_ b)
    (PayingReserveAddress_ b) (StartPrice b) (SellingCoin b) (PayingCoinDenom b)
    (VestingReserveAddress_ b) (VestingSchedules b) (RemainingSellingCoin b) (StartTime b)
    ts (Status b).

Definition BaseSetStatus (b : BaseAuction) (st : AuctionStatus) : BaseAuction :=
  mkBaseAuction (Id b) (Type_ b) (AllowedBidders b) (Auctioneer b) (SellingReserveAddress_ b)
    (PayingReserveAddress_ b) (StartPrice b) (SellingCoin b) (PayingCoinDenom b)
    (VestingReserveAddress_ b) (VestingSchedules b) (RemainingSellingCoin b) (StartTime b)
    (EndTimes b) st.

(** The setters of [AuctionI]. *)
Definition SetAllowedBidders (a : AuctionI) (bidders : list AllowedBidder) : AuctionI :=
  with_base (fun b => BaseSetAllowedBidders b bidders) a.
Definition SetRemainingSellingCoin (a : AuctionI) (coin : Coin) : AuctionI :=
  with_base (fun b => BaseSetRemainingSellingCoin b coin) a.
Definition SetStatus (a : AuctionI) (st : AuctionStatus) : AuctionI :=
  with_base (fun b => BaseSetStatus b st) a.

(** [ba.SetEndTimes] on a batch auction. *)
Definition SetEndTimes (ba : BatchAuction) (ts : list Time) : BatchAuction :=
  mkBatchAuction (BaseSetEndTimes (BaseAuction_ ba) ts) (MinBidPrice ba) (MatchedPrice ba)
    (MaxExtendedRound ba) (ExtendedRoundRate ba).

(** Modelled from the spec: [BaseAuction.ShouldAuctionStarted] of the types
    package; an auction starts when [block_time >= start_time]. *)
Definition ShouldAuctionStarted (b : BaseAuction) (t : Time) : bool :=
  negb (After (StartTime b) t).

(** Modelled from the spec: [types.ValidateAllowedBidders]; every entry has a
    [max_bid_amount] that is not nil, is positive and does not exceed the
    selling amount, otherwise [InvalidMaxBidAmount]. *)
Fixpoint ValidateAllowedBidders (bidders : list AllowedBidder) (sellingAmt : Z) : option Error :=
  match bidders with
  | [] => None
  | b :: rest =>
      match MaxBidAmount b with
      | None => Some ErrInvalidMaxBidAmount
      | Some v =>
          if negb (0 <? v) then Some ErrInvalidMaxBidAmount
          else if sellingAmt <? v then Some ErrInvalidMaxBidAmount
          else ValidateAllowedBidders rest sellingAmt
      end
  end.

(** Modelled from the spec: [GetAllowedBiddersMap] of the types package; the
    list of allowed bidders as a mapping from bidder to cap. *)
Definition GetAllowedBiddersMap (a : AuctionI) : gmap string Int :=
  foldl (fun m ab => <[Bidder ab := MaxBidAmount ab]> m) ∅ (GetAllowedBidders a).

(** Modelled from the spec: [SetMaxBidAmount] of the types package; the cap
    of the bidder is replaced, the other entries are kept. *)
Definition SetMaxBidAmount (a : AuctionI) (bidder : string) (maxBidAmount : Int) : AuctionI :=
  SetAllowedBidders a
    (map (fun ab => if String.eqb (Bidder ab) bidder
                    then mkAllowedBidder (Bidder ab) maxBidAmount else ab)
       (GetAllowedBidders a)).

(** [types.VestingQueue]: one tranche of the proceeds of an auction. *)
Record VestingQueue := mkVestingQueue {
  vq_AuctionId : Z;
  vq_Auctioneer : string;
  PayingCoin : Coin;
  ReleaseTime : Time;
  Released : bool
}.

(** Modelled from the spec: [VestingQueue.ShouldRelease] of the types package;
    an entry is due when [release_time <= block_time] and it is not released. *)
Definition ShouldRelease (vq : VestingQueue) (t : Time) : bool :=
  negb (After (ReleaseTime vq) t) && negb (Released vq).

(** [vq.SetReleased(status)] *)
Definition SetReleased (vq : VestingQueue) (status : bool) : VestingQueue :=
  mkVestingQueue (vq_AuctionId vq) (vq_Auctioneer vq) (PayingCoin vq) (ReleaseTime vq) status.

(** [MatchingInfo] of the keeper: the result of a clearing. *)
Record MatchingInfo := mkMatchingInfo {
  MatchedLen : Z;
  mi_MatchedPrice : Dec;
  TotalMatchedAmount : Z;
  AllocationMap : gmap string Z;
  RefundMap : gmap string Z
}.

(** ** Module parameters and events *)

(** The module parameters that the keeper reads. *)
Record Params := mkParams {
  ExtendedPeriod : Z;
  AuctionCreationFee : Coins;
  FeeCollectorAddress : string
}.

(** The event types and attribute keys of the module that auction.go names. *)
Inductive EventType :=
| EventTypeCreateFixedPriceAuction
| EventTypeCreateBatchAuction
| EventTypeCancelAuction.

Inductive AttributeKey :=
| AttributeKeyAuctionId
| AttributeKeyAuctioneerAddress
| AttributeKeySellingReserveAddress
| AttributeKeyPayingReserveAddress
| AttributeKeyStartPrice
| AttributeKeySellingCoin
| AttributeKeyPayingCoinDenom
| AttributeKeyVestingReserveAddress
| AttributeKeyRemainingSellingCoin
| AttributeKeyStartTime
| AttributeKeyEndTime
| AttributeKeyAuctionStatus
| AttributeKeyMinBidPrice
| AttributeKeyMaxExtendedRound
| AttributeKeyExtendedRoundRate.

(** The value of an event attribute, before it is rendered as text. *)
Inductive AttrValue :=
| AttrUint (n : Z)
| AttrString (s : string)
| AttrDec (d : Dec)
| AttrCoin (c : Coin)
| AttrTime (t : Time)
| AttrStatus (st : AuctionStatus).

Record Event := NewEvent {
  ev_Type : EventType;
  ev_Attributes : list (AttributeKey * AttrValue)
}.

(** ** The bank keeper (types.BankKeeper, an interface of expected keepers) *)

(** [banktypes.Input] and [banktypes.Output] *)
Record Input := NewInput { in_Address : string; in_Coins : Coins }.
Record Output := NewOutput { out_Address : string; out_Coins : Coins }.

(** The methods of the bank keeper that auction.go calls, over the state [B]
    of the bank; a refused transfer leaves the bank as it was. *)
Class BankKeeper (B : Type) := {
  SpendableCoins : B -> string -> Coins;
  SendCoins : B -> string -> string -> Coins -> Error + B;
  InputOutputCoins : B -> list Input -> list Output -> Error + B
}.

(** ** Results of keeper methods *)

(** A keeper method returns a value and the store, or panics. *)
Inductive Outcome (S A : Type) :=
| Done (a : A) (s : S)
| Panicked (e : Error).

Arguments Done {S A} a s.
Arguments Panicked {S A} e.

(** ** The vesting-queue store

    Vesting queues live under the key (auction id, release time); iteration
    over the store follows the key order. *)

(** The order of the keys, as a relation and as a test. *)
Definition vq_key_lt (x y : VestingQueue) : Prop :=
  vq_AuctionId x < vq_AuctionId y \/
  (vq_AuctionId x = vq_AuctionId y /\ ReleaseTime x < ReleaseTime y).

Definition vq_key_ltb (x y : VestingQueue) : bool :=
  (vq_AuctionId x <? vq_AuctionId y) ||
  ((vq_AuctionId x =? vq_AuctionId y) && (ReleaseTime x <? ReleaseTime y)).

Definition vq_key_eqb (x y : VestingQueue) : bool :=
  (vq_AuctionId x =? vq_AuctionId y) && (ReleaseTime x =? ReleaseTime y).

(** Write [vq] under its key. *)
Fixpoint vq_put (vq : VestingQueue) (store : list VestingQueue) : list VestingQueue :=
  match store with
  | [] => [vq]
  | x :: rest =>
      if vq_key_ltb vq x then vq :: x :: rest
      else if vq_key_eqb vq x then vq :: rest
      else x :: vq_put vq rest
  end.

(** The entries of one auction, in store order. *)
Definition vq_by_auction (id : Z) (store : list VestingQueue) : list VestingQueue :=
  filter (fun vq => vq_AuctionId vq = id) store.

(** The store is in strictly increasing key order. *)
Definition vq_sorted (store : list VestingQueue) : Prop :=
  StronglySorted vq_key_lt store.

(** ** Vocabulary of the properties *)

(** A cap that is set and positive. *)
Definition cap_positive (ab : AllowedBidder) : Prop :=
  exists v, MaxBidAmount ab = Some v /\ 0 < v.

(** A cap that is set, positive and at most the selling amount. *)
Definition cap_within (sellingAmt : Z) (ab : AllowedBidder) : Prop :=
  exists v, MaxBidAmount ab = Some v /\ 0 < v <= sellingAmt.

(** An entry that is due. *)
Definition due (now : Time) (vq : VestingQueue) : Prop := ShouldRelease vq now = true.

#[local] Instance due_dec now vq : Decision (due now vq).
Proof. unfold due. apply _. Defined.

(** An entry as the releaser leaves it: released when it was due. *)
Definition release_due (now : Time) (vq : VestingQueue) : VestingQueue :=
  if ShouldRelease vq now then SetReleased vq true else vq.

(** Whether the last entry of a queue is due. *)
Definition last_due (now : Time) (vqs : list VestingQueue) : bool :=
  match last vqs with
  | Some vq => ShouldRelease vq now
  | None => false
  end.






(** The test of FinishBatchAuction for the last round of a batch auction:
    [ba.MaxExtendedRound+1 == uint32(len(auction.GetEndTimes()))]. *)
Definition in_last_round (ba : BatchAuction) : bool :=
  (MaxExtendedRound ba + 1) mod 2 ^ 32
    =? Z.of_nat (length (EndTimes (BaseAuction_ ba))) mod 2 ^ 32.

Section Keeper.

Context {B : Type} {bank_keeper : BankKeeper B}.

(** ** The store and the block context *)

(** The context of a call: the block time, and the stores of the module and
    of the bank. *)
Record State := mkState {
  BlockTime : Time;
  StoredParams : Params;
  LastAuctionId : Z;
  Auctions : gmap Z AuctionI;
  VestingQueues : list VestingQueue;
  MatchedBidsLen : gmap Z Z;
  Bank : B;
  Events : list Event
}.

(** Keeper computations and their sequencing. *)
Definition K (A : Type) : Type := State -> Outcome State A.

Definition ret {A} (a : A) : K A := fun s => Done a s.

Definition bind {A T} (c : K A) (f : A -> K T) : K T :=
  fun s => match c s with
           | Done a s' => f a s'
           | Panicked e => Panicked e
           end.

Definition panic {A} (e : Error) : K A := fun _ => Panicked e.

Definition gets {A} (f : State -> A) : K A := fun s => Done (f s) s.

Definition modify (f : State -> State) : K unit := fun s => Done tt (f s).

Notation "'let*' x ':=' c 'in' k" := (bind c (fun x => k))
  (at level 10, x pattern, c at level 100, k at level 200).

(** *** Store accessors (keeper/store.go) *)

(** The store with one component replaced. *)
Definition with_LastAuctionId (id : Z) (s : State) : State :=
  mkState (BlockTime s) (StoredParams s) id (Auctions s) (VestingQueues s)
    (MatchedBidsLen s) (Bank s) (Events s).

Definition with_Auctions (m : gmap Z AuctionI) (s : State) : State :=
  mkState (BlockTime s) (StoredParams s) (LastAuctionId s) m (VestingQueues s)
    (MatchedBidsLen s) (Bank s) (Events s).

Definition with_VestingQueues (q : list VestingQueue) (s : State) : State :=
  mkState (BlockTime s) (StoredParams s) (LastAuctionId s) (Auctions s) q
    (MatchedBidsLen s) (Bank s) (Events s).

Definition with_Bank (b : B) (s : State) : State :=
  mkState (BlockTime s) (StoredParams s) (LastAuctionId s) (Auctions s) (VestingQueues s)
    (MatchedBidsLen s) b (Events s).

Definition with_Events (ev : list Event) (s : State) : State :=
  mkState (BlockTime s) (StoredParams s) (LastAuctionId s) (Auctions s) (VestingQueues s)
    (MatchedBidsLen s) (Bank s) ev.

(** Reads and writes of the store. *)
Definition GetLastAuctionId : K Z := gets LastAuctionId.

Definition SetAuctionId (id : Z) : K unit := modify (with_LastAuctionId id).

Definition GetAuction (id : Z) : K (option AuctionI) := gets (fun s => Auctions s !! id).

Definition SetAuction (auction : AuctionI) : K unit :=
  modify (fun s => with_Auctions (<[GetId auction := auction]> (Auctions s)) s).

Definition GetVestingQueuesByAuctionId (id : Z) : K (list VestingQueue) :=
  gets (fun s => vq_by_auction id (VestingQueues s)).

Definition SetVestingQueue (vq : VestingQueue) : K unit :=
  modify (fun s => with_VestingQueues (vq_put vq (VestingQueues s)) s).

(** Modelled from the spec: [GetLastMatchedBidsLen] of the keeper's store; the
    previous matched length, zero on the first pass. *)
Definition GetLastMatchedBidsLen (id : Z) : K Z :=
  gets (fun s => default 0 (MatchedBidsLen s !! id)).

Definition GetParams : K Params := gets StoredParams.

Definition GetBlockTime : K Time := gets BlockTime.

Definition EmitEvent (ev : Event) : K unit :=
  modify (fun s => with_Events (Events s ++ [ev]) s).

(** *** Calls into the bank keeper *)

Definition bankSpendableCoins (addr : string) : K Coins :=
  gets (fun s => SpendableCoins (Bank s) addr).

Definition bankSendCoins (from to : string) (amt : Coins) : K (option Error) :=
  fun s => match SendCoins (Bank s) from to amt with
           | inl err => Done (Some err) s
           | inr b => Done None (with_Bank b s)
           end.

Definition bankInputOutputCoins (inputs : list Input) (outputs : list Output) : K (option Error) :=
  fun s => match InputOutputCoins (Bank s) inputs outputs with
           | inl err => Done (Some err) s
           | inr b => Done None (with_Bank b s)
           end.

(** ** Keeper methods that live outside auction.go

    The derivation of the reserve addresses, the bech32 decoder, the two
    clearing algorithms and the vesting-schedule application are taken as
    given.  The clearing functions and [ApplyVestingSchedules] receive the
    auction through its pointer, so they return it. *)

Variable SellingReserveAddress : Z -> string.
Variable PayingReserveAddress : Z -> string.
Variable VestingReserveAddress : Z -> string.
Variable AccAddressFromBech32 : string -> Error + string.
Variable CalculateFixedPriceAllocation : AuctionI -> K (MatchingInfo * AuctionI).
Variable CalculateBatchAllocation : AuctionI -> K (MatchingInfo * AuctionI).
Variable ApplyVestingSchedules : AuctionI -> K (option Error * AuctionI).

(** Modelled from the spec: [ReserveCreationFee] of the keeper; the fixed
    creation fee is transferred from the auctioneer to the fee collector. *)
Definition ReserveCreationFee (auctioneerAddr : string) : K (option Error) :=
  let* params := GetParams in
  let* err := bankSendCoins auctioneerAddr (FeeCollectorAddress params)
                (AuctionCreationFee params) in
  match err with
  | Some e => ret (Some (Wrap e "failed to reserve auction creation fee"))
  | None => ret None
  end.

(** Modelled from the spec: [ReserveSellingCoin] of the keeper; the selling
    coin is transferred from the auctioneer to the selling reserve of the id. *)
Definition ReserveSellingCoin (auctionId : Z) (auctioneerAddr : string) (sellingCoin : Coin)
  : K (option Error) :=
  let* err := bankSendCoins auctioneerAddr (SellingReserveAddress auctionId)
                (NewCoins sellingCoin) in
  match err with
  | Some e => ret (Some (Wrap e "failed to reserve selling coin"))
  | None => ret None
  end.

(** ** auction.go *)

(** GetNextAuctionIdWithUpdate increments auction id by one and set it. *)
Definition GetNextAuctionIdWithUpdate : K Z :=
  let* last := GetLastAuctionId in
  let id := (last + 1) mod 2 ^ 64 in
  let* _ := SetAuctionId id in
  ret id.

(** ReleaseRemainingSellingCoin sends all the remaining selling coins back to
    the auctioneer. *)
Definition ReleaseRemainingSellingCoin (auction : AuctionI) : K (option Error) :=
  let sellingReserveAddr := GetSellingReserveAddress auction in
  let sellingCoinDenom := Denom (GetSellingCoin auction) in
  let* spendableCoins := bankSpendableCoins sellingReserveAddr in
  let releaseAmt := AmountOf spendableCoins sellingCoinDenom in
  let releaseCoins := NewCoins (NewCoin sellingCoinDenom releaseAmt) in
  let* err := bankSendCoins sellingReserveAddr (GetAuctioneer auction) releaseCoins in
  match err with
  | Some e => ret (Some e)
  | None => ret None
  end.

(** The loop of RefundPayingCoin over [mInfo.RefundMap]: the inputs and outputs
    collected so far, or the error of the first bidder that does not decode. *)
Fixpoint refund_entries (payingReserveAddr payingCoinDenom : string)
    (entries : list (string * Z)) (inputs : list Input) (outputs : list Output)
  : Error + (list Input * list Output) :=
  match entries with
  | [] => inr (inputs, outputs)
  | (bidder, refundAmt) :: rest =>
      if refundAmt =? 0 then
        refund_entries payingReserveAddr payingCoinDenom rest inputs outputs
      else
        match AccAddressFromBech32 bidder with
        | inl err => inl err
        | inr bidderAddr =>
            let refundCoins := NewCoins (NewCoin payingCoinDenom refundAmt) in
            refund_entries payingReserveAddr payingCoinDenom rest
              (inputs ++ [NewInput payingReserveAddr refundCoins])
              (outputs ++ [NewOutput bidderAddr refundCoins])
        end
  end.

(** RefundPayingCoin refunds the unmatched bid amounts back to the bidders,
    all at once. *)
Definition RefundPayingCoin (auction : AuctionI) (mInfo : MatchingInfo) : K (option Error) :=
  let payingReserveAddr := GetPayingReserveAddress auction in
  let payingCoinDenom := GetPayingCoinDenom auction in
  match refund_entries payingReserveAddr payingCoinDenom
          (map_to_list (RefundMap mInfo)) [] [] with
  | inl err => ret (Some err)
  | inr (inputs, outputs) =>
      let* err := bankInputOutputCoins inputs outputs in
      match err with
      | Some e => ret (Some e)
      | None => ret None
      end
  end.

(** The loop of AllocateSellingCoin over [mInfo.AllocationMap]; a bidder that
    does not decode yields the empty address. *)
Fixpoint allocate_entries (sellingReserveAddr sellingCoinDenom : string)
    (entries : list (string * Z)) (inputs : list Input) (outputs : list Output)
  : list Input * list Output :=
  match entries with
  | [] => (inputs, outputs)
  | (bidder, allocAmt) :: rest =>
      if allocAmt =? 0 then
        allocate_entries sellingReserveAddr sellingCoinDenom rest inputs outputs
      else
        let allocateCoins := NewCoins (NewCoin sellingCoinDenom allocAmt) in
        let bidderAddr := match AccAddressFromBech32 bidder with
                          | inl _ => ""%string
                          | inr addr => addr
                          end in
        allocate_entries sellingReserveAddr sellingCoinDenom rest
          (inputs ++ [NewInput sellingReserveAddr allocateCoins])
          (outputs ++ [NewOutput bidderAddr allocateCoins])
  end.

(** AllocateSellingCoin releases designated selling coin from the selling
    reserve account. *)
Definition AllocateSellingCoin (auction : AuctionI) (mInfo : MatchingInfo) : K (option Error) :=
  let sellingReserveAddr := GetSellingReserveAddress auction in
  let sellingCoinDenom := Denom (GetSellingCoin auction) in
  let '(inputs, outputs) :=
    allocate_entries sellingReserveAddr sellingCoinDenom
      (map_to_list (AllocationMap mInfo)) [] [] in
  let* err := bankInputOutputCoins inputs outputs in
  match err with
  | Some e => ret (Some e)
  | None => ret None
  end.

(** The range loop of AllocateVestingPayingCoin, at index [i] of a queue of
    length [vqsLen]. *)
Fixpoint release_loop (vqsLen i : Z) (vqs : list VestingQueue) (auction : AuctionI)
  : K (option Error * AuctionI) :=
  match vqs with
  | [] => ret (None, auction)
  | vq :: rest =>
      let* now := GetBlockTime in
      if ShouldRelease vq now then
        let vestingReserveAddr := GetVestingReserveAddress auction in
        let auctioneerAddr := GetAuctioneer auction in
        let payingCoins := NewCoins (PayingCoin vq) in
        let* err := bankSendCoins vestingReserveAddr auctioneerAddr payingCoins in
        match err with
        | Some e =>
            ret (Some (Wrap e "failed to release paying coin to the auctioneer"), auction)
        | None =>
            let vq := SetReleased vq true in
            let* _ := SetVestingQueue vq in
            if i =? vqsLen - 1 then
              let auction := SetStatus auction AuctionStatusFinished in
              let* _ := SetAuction auction in
              release_loop vqsLen (i + 1) rest auction
            else release_loop vqsLen (i + 1) rest auction
        end
      else release_loop vqsLen (i + 1) rest auction
  end.

(** AllocateVestingPayingCoin releases the selling coin from the vesting
    reserve account. *)
Definition AllocateVestingPayingCoin (auction : AuctionI) : K (option Error * AuctionI) :=
  let* vqs := GetVestingQueuesByAuctionId (GetId auction) in
  let vqsLen := Z.of_nat (length vqs) in
  release_loop vqsLen 0 vqs auction.

(** The messages of the three operations. *)
Record MsgCreateFixedPriceAuction := mkMsgCreateFixedPriceAuction {
  fp_Auctioneer : string;
  fp_StartPrice : Dec;
  fp_SellingCoin : Coin;
  fp_PayingCoinDenom : string;
  fp_VestingSchedules : list VestingSchedule;
  fp_StartTime : Time;
  fp_EndTime : Time
}.

Record MsgCreateBatchAuction := mkMsgCreateBatchAuction {
  b_Auctioneer : string;
  b_StartPrice : Dec;
  b_MinBidPrice : Dec;
  b_SellingCoin : Coin;
  b_PayingCoinDenom : string;
  b_VestingSchedules : list VestingSchedule;
  b_MaxExtendedRound : Z;
  b_ExtendedRoundRate : Dec;
  b_StartTime : Time;
  b_EndTime : Time
}.

Record MsgCancelAuction := mkMsgCancelAuction {
  c_Auctioneer : string;
  c_AuctionId : Z
}.

(** The attributes that the two creation events share. *)
Definition create_event_attributes (nextId : Z) (auction : AuctionI) (endTime : Time)
  : list (AttributeKey * AttrValue) :=
  [ (AttributeKeyAuctionId, AttrUint nextId);
    (AttributeKeyAuctioneerAddress, AttrString (GetAuctioneer auction));
    (AttributeKeySellingReserveAddress, AttrString (GetSellingReserveAddress auction));
    (AttributeKeyPayingReserveAddress, AttrString (GetPayingReserveAddress auction));
    (AttributeKeyStartPrice, AttrDec (GetStartPrice auction));
    (AttributeKeySellingCoin, AttrCoin (GetSellingCoin auction));
    (AttributeKeyPayingCoinDenom, AttrString (GetPayingCoinDenom auction));
    (AttributeKeyVestingReserveAddress, AttrString (GetVestingReserveAddress auction));
    (AttributeKeyRemainingSellingCoin, AttrCoin (GetRemainingSellingCoin auction));
    (AttributeKeyStartTime, AttrTime (GetStartTime auction));
    (AttributeKeyEndTime, AttrTime endTime);
    (AttributeKeyAuctionStatus, AttrStatus (GetStatus auction)) ].

(** CreateFixedPriceAuction sets a fixed price auction. *)
Definition CreateFixedPriceAuction (msg : MsgCreateFixedPriceAuction)
  : K (option AuctionI * option Error) :=
  let* now := GetBlockTime in
  if After now (fp_EndTime msg) then (* EndTime < CurrentTime *)
    ret (None, Some (Wrap ErrInvalidRequest "end time must be set after the current time"))
  else
    let* nextId := GetNextAuctionIdWithUpdate in
    let* err := ReserveCreationFee (fp_Auctioneer msg) in
    match err with
    | Some e => ret (None, Some e)
    | None =>
        let* err := ReserveSellingCoin nextId (fp_Auctioneer msg) (fp_SellingCoin msg) in
        match err with
        | Some e => ret (None, Some e)
        | None =>
            let allowedBidders := [] in
            let endTimes := [fp_EndTime msg] in
            let ba := NewBaseAuction
                        nextId
                        AuctionTypeFixedPrice
                        allowedBidders
                        (fp_Auctioneer msg)
                        (SellingReserveAddress nextId)
                        (PayingReserveAddress nextId)
                        (fp_StartPrice msg)
                        (fp_SellingCoin msg)
                        (fp_PayingCoinDenom msg)
                        (VestingReserveAddress nextId)
                        (fp_VestingSchedules msg)
                        (fp_SellingCoin msg)
                        (fp_StartTime msg)
                        endTimes
                        AuctionStatusStandBy in
            let ba := if ShouldAuctionStarted ba now
                      then BaseSetStatus ba AuctionStatusStarted else ba in
            let auction := NewFixedPriceAuction ba in
            let* _ := SetAuction auction in
            let* _ := EmitEvent (NewEvent EventTypeCreateFixedPriceAuction
                                   (create_event_attributes nextId auction (fp_EndTime msg))) in
            ret (Some auction, None)
        end
    end.

(** CreateBatchAuction sets batch auction. *)
Definition CreateBatchAuction (msg : MsgCreateBatchAuction)
  : K (option AuctionI * option Error) :=
  let* now := GetBlockTime in
  if After now (b_EndTime msg) then (* EndTime < CurrentTime *)
    ret (None, Some (Wrap ErrInvalidRequest "end time must be set after the current time"))
  else
    let* nextId := GetNextAuctionIdWithUpdate in
    let* err := ReserveCreationFee (b_Auctioneer msg) in
    match err with
    | Some e => ret (None, Some e)
    | None =>
        let* err := ReserveSellingCoin nextId (b_Auctioneer msg) (b_SellingCoin msg) in
        match err with
        | Some e => ret (None, Some e)
        | None =>
            let allowedBidders := [] in
            let endTimes := [b_EndTime msg] in
            let baseAuction := NewBaseAuction
                        nextId
                        AuctionTypeBatch
                        allowedBidders
                        (b_Auctioneer msg)
                        (SellingReserveAddress nextId)
                        (PayingReserveAddress nextId)
                        (b_StartPrice msg)
                        (b_SellingCoin msg)
                        (b_PayingCoinDenom msg)
                        (VestingReserveAddress nextId)
                        (b_VestingSchedules msg)
                        (b_SellingCoin msg)
                        (b_StartTime msg)
                        endTimes
                        AuctionStatusStandBy in
            let baseAuction := if ShouldAuctionStarted baseAuction now
                               then BaseSetStatus baseAuction AuctionStatusStarted
                               else baseAuction in
            let ba := NewBatchAuction
                        baseAuction
                        (b_MinBidPrice msg)
                        ZeroDec
                        (b_MaxExtendedRound msg)
                        (b_ExtendedRoundRate msg) in
            let auction := BatchAuctionI ba in
            let* _ := SetAuction auction in
            let* _ := EmitEvent (NewEvent EventTypeCreateBatchAuction
                                   (create_event_attributes nextId auction (b_EndTime msg) ++
                                    [ (AttributeKeyMinBidPrice, AttrDec (MinBidPrice ba));
                                      (AttributeKeyMaxExtendedRound,
                                        AttrUint (MaxExtendedRound ba));
                                      (AttributeKeyExtendedRoundRate,
                                        AttrDec (ExtendedRoundRate ba)) ])) in
            ret (Some auction, None)
        end
    end.

(** CancelAuction cancels the auction in an event when the auctioneer needs to
    modify the auction.  However, it can only be canceled when the auction has
    not started yet. *)
Definition CancelAuction (msg : MsgCancelAuction) : K (option Error) :=
  let* found := GetAuction (c_AuctionId msg) in
  match found with
  | None => ret (Some (Wrapf ErrNotFound "auction %d not found" (ArgUint (c_AuctionId msg))))
  | Some auction =>
      if negb (String.eqb (GetAuctioneer auction) (c_Auctioneer msg)) then
        ret (Some (Wrap ErrUnauthorized "only the autioneer can cancel the auction"))
      else if negb (bool_decide (GetStatus auction = AuctionStatusStandBy)) then
        ret (Some (Wrap ErrInvalidAuctionStatus "only the stand by auction can be cancelled"))
      else
        let sellingReserveAddr := GetSellingReserveAddress auction in
        let sellingCoinDenom := Denom (GetSellingCoin auction) in
        let* spendableCoins := bankSpendableCoins sellingReserveAddr in
        let releaseCoin := NewCoin sellingCoinDenom (AmountOf spendableCoins sellingCoinDenom) in
        let* err := bankSendCoins sellingReserveAddr (GetAuctioneer auction)
                      (NewCoins releaseCoin) in
        match err with
        | Some e => ret (Some (Wrap e "failed to release the selling coin"))
        | None =>
            let auction := SetRemainingSellingCoin auction (NewCoin sellingCoinDenom 0) in
            let auction := SetStatus auction AuctionStatusCancelled in
            let* _ := SetAuction auction in
            let* _ := EmitEvent (NewEvent EventTypeCancelAuction
                                   [(AttributeKeyAuctionId, AttrUint (GetId auction))]) in
            ret None
        end
  end.

(** AddAllowedBidders is a function for an external module and it simply adds
    new bidder(s) to AllowedBidder list. *)
Definition AddAllowedBidders (auctionId : Z) (bidders : list AllowedBidder) : K (option Error) :=
  let* found := GetAuction auctionId in
  match found with
  | None => ret (Some (Wrapf ErrNotFound "auction %d is not found" (ArgUint auctionId)))
  | Some auction =>
      if (length bidders =? 0)%nat then ret (Some ErrEmptyAllowedBidders)
      else
        match ValidateAllowedBidders bidders (Amount (GetSellingCoin auction)) with
        | Some err => ret (Some err)
        | None =>
            let allowedBidders := GetAllowedBidders auction in
            let allowedBidders := allowedBidders ++ bidders in
            let auction := SetAllowedBidders auction allowedBidders in
            let* _ := SetAuction auction in
            ret None
        end
  end.

(** UpdateAllowedBidder is a function for an external module and it simply
    updates the bidder's maximum bid amount. *)
Definition UpdateAllowedBidder (auctionId : Z) (bidder : string) (maxBidAmount : Int)
  : K (option Error) :=
  let* found := GetAuction auctionId in
  match found with
  | None => ret (Some (Wrapf ErrNotFound "auction %d is not found" (ArgUint auctionId)))
  | Some auction =>
      if IsNil maxBidAmount then ret (Some ErrInvalidMaxBidAmount)
      else if negb (IsPositive maxBidAmount) then ret (Some ErrInvalidMaxBidAmount)
      else
        match GetAllowedBiddersMap auction !! bidder with
        | None => ret (Some (Wrapf ErrNotFound "bidder %s is not found" (ArgString bidder)))
        | Some _ =>
            let auction := SetMaxBidAmount auction bidder maxBidAmount in
            let* _ := SetAuction auction in
            ret None
        end
  end.

(** ExtendRound appends an end time, the block time plus the extended period
    in days, and stores the auction. *)
Definition ExtendRound (ba : BatchAuction) : K BatchAuction :=
  let* params := GetParams in
  let* now := GetBlockTime in
  let extendedPeriod := AddDate_days now (ExtendedPeriod params) in
  let endTimes := EndTimes (BaseAuction_ ba) in
  let endTimes := endTimes ++ [extendedPeriod] in
  let ba := SetEndTimes ba endTimes in
  let* _ := SetAuction (BatchAuctionI ba) in
  ret ba.

(** FinishFixedPriceAuction settles a fixed-price auction; an error is a
    panic. *)
Definition FinishFixedPriceAuction (auction : AuctionI) : K AuctionI :=
  let* (mInfo, auction) := CalculateFixedPriceAllocation auction in
  let* err := AllocateSellingCoin auction mInfo in
  match err with
  | Some e => panic e
  | None =>
  let* err := ReleaseRemainingSellingCoin auction in
  match err with
  | Some e => panic e
  | None =>
  let* (err, auction) := ApplyVestingSchedules auction in
  match err with
  | Some e => panic e
  | None => ret auction
  end end end.

(** The type assertion of [auction] to a batch auction: [ba] and [auction]
    are one object; the assertion panics on an auction of the other kind. *)
Definition as_batch (auction : AuctionI) : K BatchAuction :=
  match auction with
  | BatchAuctionI ba => ret ba
  | FixedPriceAuction _ =>
      panic (ErrRuntime "interface conversion: types.AuctionI is not *types.BatchAuction")
  end.

(** FinishBatchAuction settles a batch auction in its last round and, as the
    text of the method has it, goes on to the extended-round controller: no
    return ends the first block. *)
Definition FinishBatchAuction (auction : AuctionI) : K AuctionI :=
  let* ba := as_batch auction in
  let* auction :=
    if (MaxExtendedRound ba + 1) mod 2 ^ 32
         =? Z.of_nat (length (GetEndTimes auction)) mod 2 ^ 32 then
      let* (mInfo, auction) := CalculateBatchAllocation auction in
      let* err := AllocateSellingCoin auction mInfo in
      match err with
      | Some e => panic e
      | None =>
      let* err := ReleaseRemainingSellingCoin auction in
      match err with
      | Some e => panic e
      | None =>
      let* err := RefundPayingCoin auction mInfo in
      match err with
      | Some e => panic e
      | None =>
      let* (err, auction) := ApplyVestingSchedules auction in
      match err with
      | Some e => panic e
      | None => ret auction
      end end end end
    else ret auction in
  (* Extend round since there is no last matched length to compare with *)
  let* lastMatchedLen := GetLastMatchedBidsLen (GetId auction) in
  if lastMatchedLen =? 0 then
    let* (_, auction) := CalculateBatchAllocation auction in
    let* ba := as_batch auction in
    let* ba := ExtendRound ba in
    ret (BatchAuctionI ba)
  else
    let* (mInfo, auction) := CalculateBatchAllocation auction in
    let* ba := as_batch auction in
    let currDec := NewDec (MatchedLen mInfo) in
    let lastDec := NewDec lastMatchedLen in
    match DecQuo currDec lastDec with
    | None => panic (ErrRuntime "division by zero")
    | Some quo =>
        let diff := DecSub OneDec quo in (* 1 - (CurrentMatchedLenDec / LastMatchedLenDec) *)
        if DecGTE diff (ExtendedRoundRate ba) then
          let* ba := ExtendRound ba in
          ret (BatchAuctionI ba)
        else
          let* err := AllocateSellingCoin auction mInfo in
          match err with
          | Some e => panic e
          | None =>
          let* err := ReleaseRemainingSellingCoin auction in
          match err with
          | Some e => panic e
          | None =>
          let* err := RefundPayingCoin auction mInfo in
          match err with
          | Some e => panic e
          | None =>
          let* (err, auction) := ApplyVestingSchedules auction in
          match err with
          | Some e => panic e
          | None => ret auction
          end end end end
    end.

(** Modelled from the spec: the vesting step of the end-of-block sweep (the
    module's EndBlocker, which is not part of auction.go).  On a block tick an
    auction in Vesting status has its due tranches released; a failure in a
    transfer is fatal to the block (panic upward). *)
Definition EndBlockerVesting (auction : AuctionI) : K AuctionI :=
  if bool_decide (GetStatus auction = AuctionStatusVesting) then
    let* (err, auction) := AllocateVestingPayingCoin auction in
    match err with
    | Some e => panic e
    | None => ret auction
    end
  else ret auction.

(** Successive calls of the id allocator: the ids they return, in order. *)
Fixpoint draw_ids (n : nat) (s : State) : list Z :=
  match n with
  | O => []
  | S n' =>
      match GetNextAuctionIdWithUpdate s with
      | Done id s' => id :: draw_ids n' s'
      | Panicked _ => []
      end
  end.

(** *** Vocabulary of the properties, over the store *)

(** What a creation does once its end time has passed the time check: an id
    is drawn first; a failed reservation returns its error with nothing stored,
    a successful creation stores the auction under the drawn id. *)
Definition created_past_check (s : State) (res : Outcome State (option AuctionI * option Error))
  : Prop :=
  let nextId := (LastAuctionId s + 1) mod 2 ^ 64 in
  exists r s', res = Done r s' /\ LastAuctionId s' = nextId /\
    match r with
    | (None, Some e) =>
        Auctions s' = Auctions s /\
        ((exists e0, e = Wrap e0 "failed to reserve auction creation fee") \/
         (exists e0, e = Wrap e0 "failed to reserve selling coin"))
    | (Some a, None) => GetId a = nextId /\ Auctions s' = <[nextId := a]> (Auctions s)
    | _ => False
    end.



(** The transfers of the paying coins of [tranches], in order, from the
    vesting reserve to the auctioneer; the first refusal of the bank ends them. *)
Fixpoint pay_tranches (b : B) (from to : string) (tranches : list VestingQueue) : Error + B :=
  match tranches with
  | [] => inr b
  | vq :: rest =>
      match SendCoins b from to (NewCoins (PayingCoin vq)) with
      | inl e => inl e
      | inr b' => pay_tranches b' from to rest
      end
  end.

(** The parts of the store the releaser never writes. *)
Definition releaser_frame (s s' : State) : Prop :=
  BlockTime s' = BlockTime s /\ StoredParams s' = StoredParams s /\
  LastAuctionId s' = LastAuctionId s /\ MatchedBidsLen s' = MatchedBidsLen s /\
  Events s' = Events s.

(** The four steps FinishBatchAuction takes with a clearing: allocate the
    selling coins, release the remainder, refund the paying coins and apply
    the vesting schedules; an error in any of them is a panic. *)
Definition settlement (auction : AuctionI) (mInfo : MatchingInfo) : K AuctionI :=
  let* err := AllocateSellingCoin auction mInfo in
  match err with
  | Some e => panic e
  | None =>
  let* err := ReleaseRemainingSellingCoin auction in
  match err with
  | Some e => panic e
  | None =>
  let* err := RefundPayingCoin auction mInfo in
  match err with
  | Some e => panic e
  | None =>
  let* (err, auction) := ApplyVestingSchedules auction in
  match err with
  | Some e => panic e
  | None => ret auction
  end end end end.


(** The auction store agrees with the id counter: every auction is stored
    under its own id, and that id is at most the counter. *)
Definition auctions_allocated (s : State) : Prop :=
  forall id a, Auctions s !! id = Some a -> GetId a = id /\ id <= LastAuctionId s.



(** The end of CancelAuction once its three checks have passed: the bank is
    asked to send the spendable selling coins of the reserve to the auctioneer;
    a refusal is returned wrapped, otherwise the auction is stored as cancelled
    and the event is emitted. *)
Definition cancel_release (auction : AuctionI) (s : State) : Outcome State (option Error) :=
  let denom := Denom (GetSellingCoin auction) in
  let reserve := GetSellingReserveAddress auction in
  match SendCoins (Bank s) reserve (GetAuctioneer auction)
          (NewCoins (NewCoin denom (AmountOf (SpendableCoins (Bank s) reserve) denom))) with
  | inl e => Done (Some (Wrap e "failed to release the selling coin")) s
  | inr b =>
      let cancelled := SetStatus (SetRemainingSellingCoin auction (NewCoin denom 0))
                         AuctionStatusCancelled in
      Done None
        (with_Events (Events s ++ [NewEvent EventTypeCancelAuction
                                     [(AttributeKeyAuctionId, AttrUint (GetId auction))]])
           (with_Auctions (<[GetId auction := cancelled]> (Auctions s)) (with_Bank b s)))
  end.

(** The extension that FinishBatchAuction makes: one more round for the batch
    auction, which it returns. *)
Definition extension (ba : BatchAuction) : K AuctionI :=
  let* ba := ExtendRound ba in
  ret (BatchAuctionI ba).

(** [extended n ba ba']: [ba'] is the batch auction that [n] calls of
    ExtendRound, each in a store of its own, make of [ba]. *)
Inductive extended : nat -> BatchAuction -> BatchAuction -> Prop :=
| extended_O ba : extended O ba ba
| extended_S n ba ba1 ba2 s s' :
    extended n ba ba1 -> ExtendRound ba1 s = Done ba2 s' -> extended (S n) ba ba2.

End Keeper.

Arguments extended : clear implicits.
Arguments State : clear implicits.
Arguments K : clear implicits.

(** * A concrete chain: a ledger for the bank and runs of the keeper *)

(** A bank that keeps one balance per address and denomination and refuses a
    withdrawal above the balance. *)
Definition Ledger : Type := list (string * string * Z).

Fixpoint ledger_balance (l : Ledger) (addr denom : string) : Z :=
  match l with
  | [] => 0
  | (a, d, v) :: rest =>
      if String.eqb a addr && String.eqb d denom then v else ledger_balance rest addr denom
  end.

Fixpoint ledger_set (l : Ledger) (addr denom : string) (v : Z) : Ledger :=
  match l with
  | [] => [(addr, denom, v)]
  | (a, d, x) :: rest =>
      if String.eqb a addr && String.eqb d denom then (a, d, v) :: rest
      else (a, d, x) :: ledger_set rest addr denom v
  end.

Definition ledger_spendable (l : Ledger) (addr : string) : Coins :=
  (fun e : string * string * Z => mkCoin (snd (fst e)) (snd e))
    <$> List.filter (fun e : string * string * Z => String.eqb (fst (fst e)) addr) l.

Fixpoint ledger_sub (l : Ledger) (addr : string) (amt : Coins) : Error + Ledger :=
  match amt with
  | [] => inr l
  | c :: rest =>
      let bal := ledger_balance l addr (Denom c) in
      if Amount c <=? bal then ledger_sub (ledger_set l addr (Denom c) (bal - Amount c)) addr rest
      else inl ErrInsufficientFunds
  end.

Fixpoint ledger_add (l : Ledger) (addr : string) (amt : Coins) : Ledger :=
  match amt with
  | [] => l
  | c :: rest =>
      ledger_add (ledger_set l addr (Denom c) (ledger_balance l addr (Denom c) + Amount c))
        addr rest
  end.

Definition ledger_send (l : Ledger) (from to : string) (amt : Coins) : Error + Ledger :=
  match ledger_sub l from amt with
  | inl e => inl e
  | inr l' => inr (ledger_add l' to amt)
  end.

Fixpoint ledger_inputs (l : Ledger) (inputs : list Input) : Error + Ledger :=
  match inputs with
  | [] => inr l
  | i :: rest =>
      match ledger_sub l (in_Address i) (in_Coins i) with
      | inl e => inl e
      | inr l' => ledger_inputs l' rest
      end
  end.

Definition ledger_io (l : Ledger) (inputs : list Input) (outputs : list Output)
  : Error + Ledger :=
  match ledger_inputs l inputs with
  | inl e => inl e
  | inr l' => inr (foldl (fun acc o => ledger_add acc (out_Address o) (out_Coins o)) l' outputs)
  end.

#[global] Instance ledger_bank : BankKeeper Ledger := {
  SpendableCoins := ledger_spendable;
  SendCoins := ledger_send;
  InputOutputCoins := ledger_io
}.

Definition ex_selling_reserve (id : Z) : string := "selling-reserve/" +:+ pretty id.
Definition ex_paying_reserve (id : Z) : string := "paying-reserve/" +:+ pretty id.
Definition ex_vesting_reserve (id : Z) : string := "vesting-reserve/" +:+ pretty id.

Definition ex_AccAddressFromBech32 (s : string) : Error + string :=
  if String.eqb s "" then inl ErrInvalidAddress else inr s.

(** Modelled from the spec: [CalculateBatchAllocation] of the keeper, on an
    auction that received no bid, the one case the runs below need.  There is
    no candidate price, so nothing is matched: the matched length is zero, the
    allocation and refund maps are empty, and the store keeps a matched length
    of zero. *)
Definition ex_CalculateBatchAllocation (auction : AuctionI)
  : K Ledger (MatchingInfo * AuctionI) :=
  fun s => Done (mkMatchingInfo 0 ZeroDec 0 ∅ ∅, auction) s.

(** Modelled from the spec: [ApplyVestingSchedules] of the keeper.  With no
    schedule the paying reserve goes to the auctioneer and the auction is
    Finished; otherwise the paying reserve moves to the vesting reserve, one
    queue entry per schedule carries its share of it, and the auction is in
    Vesting status. *)
Definition ex_ApplyVestingSchedules (auction : AuctionI)
  : K Ledger (option Error * AuctionI) :=
  fun s =>
    let denom := GetPayingCoinDenom auction in
    let reserveAmt :=
      AmountOf (ledger_spendable (Bank s) (GetPayingReserveAddress auction)) denom in
    let reserveCoins := NewCoins (NewCoin denom reserveAmt) in
    match VestingSchedules (base auction) with
    | [] =>
        match ledger_send (Bank s) (GetPayingReserveAddress auction)
                (GetAuctioneer auction) reserveCoins with
        | inl e => Done (Some e, auction) s
        | inr b =>
            let auction := SetStatus auction AuctionStatusFinished in
            Done (None, auction)
              (with_Auctions (<[GetId auction := auction]> (Auctions s)) (with_Bank b s))
        end
    | schedules =>
        match ledger_send (Bank s) (GetPayingReserveAddress auction)
                (GetVestingReserveAddress auction) reserveCoins with
        | inl e => Done (Some e, auction) s
        | inr b =>
            let queues :=
              foldl (fun store vs =>
                       vq_put (mkVestingQueue (GetId auction) (GetAuctioneer auction)
                                 (NewCoin denom (Z.quot (reserveAmt * vs_Weight vs) precisionReuse))
                                 (vs_ReleaseTime vs) false) store)
                (VestingQueues s) schedules in
            let auction := SetStatus auction AuctionStatusVesting in
            Done (None, auction)
              (with_Auctions (<[GetId auction := auction]> (Auctions s))
                 (with_VestingQueues queues (with_Bank b s)))
        end
    end.

Definition ex_now : Time := 1700000000000000000.

Definition ex_params : Params := mkParams 1 [mkCoin "stake" 100] "fee-collector".

Definition ex_ledger : Ledger :=
  [("alice"%string, "stake"%string, 500); ("alice"%string, "atom"%string, 1000)].

(** A chain at block time [ex_now] on which no auction was created yet. *)
Definition ex_state : State Ledger := mkState ex_now ex_params 0 ∅ [] ∅ ex_ledger [].


(** The same chain with the id counter two below its largest value. *)
Definition ex_state_wrap : State Ledger :=
  mkState ex_now ex_params (2 ^ 64 - 2) ∅ [] ∅ ex_ledger [].

Definition ex_fmsg (startTime endTime : Time) : MsgCreateFixedPriceAuction :=
  mkMsgCreateFixedPriceAuction "alice" (NewDec 1) (mkCoin "atom" 1000) "usd" []
    startTime endTime.

Definition ex_bmsg (startTime endTime : Time) : MsgCreateBatchAuction :=
  mkMsgCreateBatchAuction "alice" (NewDec 1) (NewDec 1) (mkCoin "atom" 1000) "usd" []
    0 (NewDec 1 / 10) startTime endTime.

Definition state_of {A} (default_state : State Ledger) (o : Outcome (State Ledger) A)
  : State Ledger :=
  match o with
  | Done _ s => s
  | Panicked _ => default_state
  end.

(** The fixed-price auction with id 1 that starts after [ex_now], as a
    creation stores it, with the given allowed bidders. *)
Definition ex_standby_auction (bidders : list AllowedBidder) : AuctionI :=
  FixedPriceAuction
    (mkBaseAuction 1 AuctionTypeFixedPrice bidders "alice" (ex_selling_reserve 1)
       (ex_paying_reserve 1) (NewDec 1) (mkCoin "atom" 1000) "usd" (ex_vesting_reserve 1) []
       (mkCoin "atom" 1000) (ex_now + 1000) [ex_now + 2000] AuctionStatusStandBy).

(** The chain after a fixed-price auction that starts later was created: the
    auction has id 1 and is in StandBy status. *)
Definition ex_state_standby : State Ledger :=
  state_of ex_state
    (CreateFixedPriceAuction ex_selling_reserve ex_paying_reserve ex_vesting_reserve
       (ex_fmsg (ex_now + 1000) (ex_now + 2000)) ex_state).

(** That chain after "bob" was allowed to bid up to 100. *)
Definition ex_state_bidder : State Ledger :=
  state_of ex_state_standby
    (AddAllowedBidders 1 [mkAllowedBidder "bob" (Some 100)] ex_state_standby).

(** An auction in Vesting status with two tranches, the first of them due. *)
Definition ex_vesting_auction : AuctionI :=
  FixedPriceAuction
    (mkBaseAuction 1 AuctionTypeFixedPrice [] "alice" (ex_selling_reserve 1)
       (ex_paying_reserve 1) (NewDec 1) (mkCoin "atom" 1000) "usd" (ex_vesting_reserve 1)
       [mkVestingSchedule (ex_now - 10) (4 * precisionReuse / 10);
        mkVestingSchedule (ex_now + 10) (6 * precisionReuse / 10)]
       (mkCoin "atom" 0) (ex_now - 2000) [ex_now - 1000] AuctionStatusVesting).

Definition ex_vesting_queue : list VestingQueue :=
  [mkVestingQueue 1 "alice" (mkCoin "usd" 400) (ex_now - 10) false;
   mkVestingQueue 1 "alice" (mkCoin "usd" 600) (ex_now + 10) false].

Definition ex_state_vesting : State Ledger :=
  mkState ex_now ex_params 1 (<[1 := ex_vesting_auction]> ∅) ex_vesting_queue ∅
    [(ex_vesting_reserve 1, "usd"%string, 1000)] [].

(** The same chain after the release time of the second tranche. *)
Definition ex_state_vesting_late : State Ledger :=
  mkState (ex_now + 20) ex_params 1 (<[1 := ex_vesting_auction]> ∅) ex_vesting_queue ∅
    [(ex_vesting_reserve 1, "usd"%string, 1000)] [].

(** The same chain with an empty vesting reserve. *)
Definition ex_state_vesting_empty : State Ledger :=
  mkState ex_now ex_params 1 (<[1 := ex_vesting_auction]> ∅) ex_vesting_queue ∅ [] [].

(** A started batch auction in its last round ([max_extended_round = 0], one
    end time) that received no bid, at its end time. *)
Definition ex_batch : BatchAuction :=
  mkBatchAuction
    (mkBaseAuction 1 AuctionTypeBatch [] "alice" (ex_selling_reserve 1)
       (ex_paying_reserve 1) (NewDec 1) (mkCoin "atom" 1000) "usd" (ex_vesting_reserve 1)
       [mkVestingSchedule (ex_now + 10 * nanosPerDay) precisionReuse]
       (mkCoin "atom" 1000) (ex_now - 1000) [ex_now] AuctionStatusStarted)
    (NewDec 1) ZeroDec 0 (NewDec 1 / 10).

Definition ex_state_batch : State Ledger :=
  mkState ex_now ex_params 1 (<[1 := BatchAuctionI ex_batch]> ∅) [] ∅
    [(ex_selling_reserve 1, "atom"%string, 1000)] [].



(** The chain of [ex_state_vesting] after both release times, with a vesting
    reserve that covers the first tranche only. *)
Definition ex_state_vesting_short : State Ledger :=
  mkState (ex_now + 20) ex_params 1 (<[1 := ex_vesting_auction]> ∅) ex_vesting_queue ∅
    [(ex_vesting_reserve 1, "usd"%string, 400)] [].

(** The batch auction of [ex_batch] with two extended rounds allowed: at its
    first end time it is not in its last round. *)
Definition ex_batch_open : BatchAuction :=
  mkBatchAuction (BaseAuction_ ex_batch) (NewDec 1) ZeroDec 2 (NewDec 1 / 10).

Definition ex_state_batch_open : State Ledger :=
  mkState ex_now ex_params 1 (<[1 := BatchAuctionI ex_batch_open]> ∅) [] ∅
    [(ex_selling_reserve 1, "atom"%string, 1000)] [].

(** The same chain with a matched length of 4 on record for the auction. *)
Definition ex_state_batch_rematch : State Ledger :=
  mkState ex_now ex_params 1 (<[1 := BatchAuctionI ex_batch_open]> ∅) [] (<[1 := 4]> ∅)
    [(ex_selling_reserve 1, "atom"%string, 1000)] [].

(** Modelled from the spec: [CalculateFixedPriceAllocation] of the keeper, on
    an auction that received no bid, the one case the runs below need.  Nothing
    is allocated and nothing is refunded. *)
Definition ex_CalculateFixedPriceAllocation (auction : AuctionI)
  : K Ledger (MatchingInfo * AuctionI) :=
  fun s => Done (mkMatchingInfo 0 ZeroDec 0 ∅ ∅, auction) s.

(** * Properties *)

Section Properties.

Context {B : Type} {bank_keeper : BankKeeper B}.

Variable SellingReserveAddress : Z -> string.
Variable PayingReserveAddress : Z -> string.
Variable VestingReserveAddress : Z -> string.
Variable AccAddressFromBech32 : string -> Error + string.
Variable CalculateFixedPriceAllocation : AuctionI -> K B (MatchingInfo * AuctionI).
Variable CalculateBatchAllocation : AuctionI -> K B (MatchingInfo * AuctionI).
Variable ApplyVestingSchedules : AuctionI -> K B (option Error * AuctionI).

Set Default Proof Using "Type".

(** Facts that do not involve the keeper methods taken as given are proved
    without them. *)
Ltac without_given_methods :=
  clear SellingReserveAddress PayingReserveAddress VestingReserveAddress
        AccAddressFromBech32 CalculateFixedPriceAllocation CalculateBatchAllocation
        ApplyVestingSchedules.

(** ** Running keeper methods *)

Lemma bind_Done {A T} (c : K B A) (f : A -> K B T) (s : State B) (a : A) (s' : State B) :
  c s = Done a s' -> bind c f s = f a s'.
Proof. unfold bind. intros ->. reflexivity. Qed.

Lemma with_Bank_same (s : State B) : with_Bank (Bank s) s = s.
Proof. destruct s; reflexivity. Qed.

(** A call into the bank changes nothing but the bank. *)
Lemma bankSendCoins_frame from to amt (s : State B) r s' :
  bankSendCoins from to amt s = Done r s' ->
  exists b, s' = with_Bank b s /\
    match r with
    | None => SendCoins (Bank s) from to amt = inr b
    | Some e => SendCoins (Bank s) from to amt = inl e /\ b = Bank s
    end.
Proof.
  unfold bankSendCoins. destruct (SendCoins (Bank s) from to amt) as [e|b] eqn:Hsend;
    intros [= <- <-].
  - exists (Bank s). rewrite with_Bank_same. auto.
  - exists b. auto.
Qed.

Lemma ReserveCreationFee_frame addr (s : State B) r s' :
  ReserveCreationFee addr s = Done r s' ->
  (exists b, s' = with_Bank b s) /\
  match r with
  | None => True
  | Some e => exists e0, e = Wrap e0 "failed to reserve auction creation fee"
  end.
Proof.
  unfold ReserveCreationFee, bind, GetParams, gets, ret. simpl.
  destruct (bankSendCoins addr _ _ s) as [r0 s0|e0] eqn:Hb; [|discriminate].
  apply bankSendCoins_frame in Hb as (b & -> & Hr).
  destruct r0 as [e0|]; intros [= <- <-]; split; eauto.
Qed.

Lemma ReserveSellingCoin_frame id addr coin (s : State B) r s' :
  ReserveSellingCoin SellingReserveAddress id addr coin s = Done r s' ->
  (exists b, s' = with_Bank b s) /\
  match r with
  | None => True
  | Some e => exists e0, e = Wrap e0 "failed to reserve selling coin"
  end.
Proof.
  unfold ReserveSellingCoin, bind, ret.
  destruct (bankSendCoins addr _ _ s) as [r0 s0|e0] eqn:Hb; [|discriminate].
  apply bankSendCoins_frame in Hb as (b & -> & Hr).
  destruct r0 as [e0|]; intros [= <- <-]; split; eauto.
Qed.

Lemma ReserveCreationFee_returns addr (s : State B) :
  exists r s', ReserveCreationFee addr s = Done r s'.
Proof.
  unfold ReserveCreationFee, bind, GetParams, gets, ret, bankSendCoins. simpl.
  destruct (SendCoins _ _ _ _); eauto.
Qed.

Lemma ReserveSellingCoin_returns id addr coin (s : State B) :
  exists r s', ReserveSellingCoin SellingReserveAddress id addr coin s = Done r s'.
Proof.
  unfold ReserveSellingCoin, bind, ret, bankSendCoins.
  destruct (SendCoins _ _ _ _); eauto.
Qed.

(** ** The auction-id allocator *)

Lemma GetNextAuctionIdWithUpdate_run (s : State B) :
  GetNextAuctionIdWithUpdate s =
    Done ((LastAuctionId s + 1) mod 2 ^ 64)
         (with_LastAuctionId ((LastAuctionId s + 1) mod 2 ^ 64) s).
Proof. reflexivity. Qed.

Lemma draw_ids_length n (s : State B) : length (draw_ids n s) = n.
Proof.
  revert s. induction n as [|n IH]; intros s; simpl; [reflexivity|].
  rewrite IH. reflexivity.
Qed.

(** The k-th draw returns the counter plus k, modulo 2^64. *)
Lemma draw_ids_lookup n (s : State B) k :
  (k < n)%nat ->
  draw_ids n s !! k = Some ((LastAuctionId s + Z.of_nat (S k)) mod 2 ^ 64).
Proof.
  revert s k. induction n as [|n IH]; intros s k Hk; [lia|].
  simpl. destruct k as [|k]; simpl.
  - reflexivity.
  - rewrite IH by lia. simpl LastAuctionId. f_equal.
    rewrite Zplus_mod_idemp_l. f_equal. lia.
Qed.

Lemma CreateFixedPriceAuction_past_check (s : State B) msg :
  BlockTime s <= fp_EndTime msg ->
  created_past_check s
    (CreateFixedPriceAuction SellingReserveAddress PayingReserveAddress
       VestingReserveAddress msg s).
Proof.
  intros Hle. unfold created_past_check, CreateFixedPriceAuction, bind, GetBlockTime, gets.
  unfold After. destruct (Z.ltb_spec (fp_EndTime msg) (BlockTime s)) as [?|_]; [lia|].
  rewrite GetNextAuctionIdWithUpdate_run.
  set (nextId := (LastAuctionId s + 1) mod 2 ^ 64).
  set (s1 := with_LastAuctionId nextId s).
  destruct (ReserveCreationFee_returns (fp_Auctioneer msg) s1) as (r1 & s2 & H1).
  rewrite H1. destruct (ReserveCreationFee_frame _ _ _ _ H1) as [[b1 ->] Hr1].
  destruct r1 as [e1|].
  { do 2 eexists. split; [reflexivity|]. simpl. auto. }
  destruct (ReserveSellingCoin_returns nextId (fp_Auctioneer msg) (fp_SellingCoin msg)
              (with_Bank b1 s1)) as (r2 & s3 & H2).
  rewrite H2. destruct (ReserveSellingCoin_frame _ _ _ _ _ _ H2) as [[b2 ->] Hr2].
  destruct r2 as [e2|].
  { do 2 eexists. split; [reflexivity|]. simpl. auto. }
  do 2 eexists. split; [reflexivity|]. simpl.
  destruct (ShouldAuctionStarted _ _); simpl; auto.
Qed.

Lemma CreateBatchAuction_past_check (s : State B) msg :
  BlockTime s <= b_EndTime msg ->
  created_past_check s
    (CreateBatchAuction SellingReserveAddress PayingReserveAddress VestingReserveAddress msg s).
Proof.
  intros Hle. unfold created_past_check, CreateBatchAuction, bind, GetBlockTime, gets.
  unfold After. destruct (Z.ltb_spec (b_EndTime msg) (BlockTime s)) as [?|_]; [lia|].
  rewrite GetNextAuctionIdWithUpdate_run.
  set (nextId := (LastAuctionId s + 1) mod 2 ^ 64).
  set (s1 := with_LastAuctionId nextId s).
  destruct (ReserveCreationFee_returns (b_Auctioneer msg) s1) as (r1 & s2 & H1).
  rewrite H1. destruct (ReserveCreationFee_frame _ _ _ _ H1) as [[b1 ->] Hr1].
  destruct r1 as [e1|].
  { do 2 eexists. split; [reflexivity|]. simpl. auto. }
  destruct (ReserveSellingCoin_returns nextId (b_Auctioneer msg) (b_SellingCoin msg)
              (with_Bank b1 s1)) as (r2 & s3 & H2).
  rewrite H2. destruct (ReserveSellingCoin_frame _ _ _ _ _ _ H2) as [[b2 ->] Hr2].
  destruct r2 as [e2|].
  { do 2 eexists. split; [reflexivity|]. simpl. auto. }
  do 2 eexists. split; [reflexivity|]. simpl.
  destruct (ShouldAuctionStarted _ _); simpl; auto.
Qed.

Lemma CreateFixedPriceAuction_before_block_time (s : State B) msg :
  fp_EndTime msg < BlockTime s ->
  CreateFixedPriceAuction SellingReserveAddress PayingReserveAddress VestingReserveAddress msg s =
    Done (None, Some (Wrap ErrInvalidRequest "end time must be set after the current time")) s.
Proof.
  intros Hlt. unfold CreateFixedPriceAuction, bind, GetBlockTime, gets, After.
  destruct (Z.ltb_spec (fp_EndTime msg) (BlockTime s)); [reflexivity | lia].
Qed.

Lemma CreateBatchAuction_before_block_time (s : State B) msg :
  b_EndTime msg < BlockTime s ->
  CreateBatchAuction SellingReserveAddress PayingReserveAddress VestingReserveAddress msg s =
    Done (None, Some (Wrap ErrInvalidRequest "end time must be set after the current time")) s.
Proof.
  intros Hlt. unfold CreateBatchAuction, bind, GetBlockTime, gets, After.
  destruct (Z.ltb_spec (b_EndTime msg) (BlockTime s)); [reflexivity | lia].
Qed.

(** C2 (as amended). A creation, fixed-price or batch, fails with
    InvalidRequest and leaves the store as it was whenever its end time is
    strictly before the block time.  When the end time is at or after the block
    time, in particular equal to it, the time check passes: the creation goes on
    to draw the next auction id and then either stores the auction or returns
    the error of a reservation. *)
Theorem create_rejects_end_time_before_block_time
    (s : State B) (fmsg : MsgCreateFixedPriceAuction) (bmsg : MsgCreateBatchAuction) :
  (fp_EndTime fmsg < BlockTime s ->
     exists e,
       CreateFixedPriceAuction SellingReserveAddress PayingReserveAddress
         VestingReserveAddress fmsg s = Done (None, Some e) s /\
       Cause e = ErrInvalidRequest) /\
  (b_EndTime bmsg < BlockTime s ->
     exists e,
       CreateBatchAuction SellingReserveAddress PayingReserveAddress
         VestingReserveAddress bmsg s = Done (None, Some e) s /\
       Cause e = ErrInvalidRequest) /\
  (BlockTime s <= fp_EndTime fmsg ->
     created_past_check s
       (CreateFixedPriceAuction SellingReserveAddress PayingReserveAddress
          VestingReserveAddress fmsg s)) /\
  (BlockTime s <= b_EndTime bmsg ->
     created_past_check s
       (CreateBatchAuction SellingReserveAddress PayingReserveAddress
          VestingReserveAddress bmsg s)).
Proof.
  repeat split.
  - intros H. eexists. split; [apply CreateFixedPriceAuction_before_block_time, H|].
    reflexivity.
  - intros H. eexists. split; [apply CreateBatchAuction_before_block_time, H|].
    reflexivity.
  - apply CreateFixedPriceAuction_past_check.
  - apply CreateBatchAuction_past_check.
Qed.

(** C9 (as amended). As long as the counter stays below 2^64, the k-th call
    of the id allocator returns the stored counter plus k: every call returns an
    id strictly greater than every id returned before it, and greater than the
    counter it started from. *)
Theorem allocator_ids_increase_below_wrap (s : State B) (n : nat) :
  0 <= LastAuctionId s ->
  LastAuctionId s + Z.of_nat n < 2 ^ 64 ->
  (forall k, (k < n)%nat ->
     draw_ids n s !! k = Some (LastAuctionId s + Z.of_nat (S k))) /\
  (forall i j x y, (i < j)%nat ->
     draw_ids n s !! i = Some x -> draw_ids n s !! j = Some y -> x < y) /\
  Forall (fun id => LastAuctionId s < id) (draw_ids n s).
Proof.
  intros Hlo Hhi.
  assert (Hk : forall k, (k < n)%nat ->
            draw_ids n s !! k = Some (LastAuctionId s + Z.of_nat (S k))).
  { intros k Hlt. rewrite draw_ids_lookup by exact Hlt.
    rewrite Z.mod_small by lia. reflexivity. }
  split; [exact Hk|]. split.
  - intros i j x y Hij Hi Hj.
    assert (Hjn : (j < n)%nat).
    { apply lookup_lt_Some in Hj. rewrite draw_ids_length in Hj. exact Hj. }
    rewrite Hk in Hi by lia. rewrite Hk in Hj by lia.
    injection Hi as <-. injection Hj as <-. lia.
  - apply Forall_lookup. intros k x Hx.
    assert (Hkn : (k < n)%nat).
    { apply lookup_lt_Some in Hx. rewrite draw_ids_length in Hx. exact Hx. }
    rewrite Hk in Hx by exact Hkn. injection Hx as <-. lia.
Qed.






(** ** Cancellation *)


(** ** Allowed bidders *)

(** C7. For an existing auction, AddAllowedBidders rejects an empty list with
    EmptyAllowedBidders; a call that returns an error leaves the store, and so
    the auction, unchanged; a call that succeeds stores the auction with its
    previous list followed by the supplied bidders, in order and without
    removing duplicates, and changes nothing else. *)
Theorem AddAllowedBidders_appends (s : State B) (auctionId : Z) (a : AuctionI) :
  Auctions s !! auctionId = Some a ->
  AddAllowedBidders auctionId [] s = Done (Some ErrEmptyAllowedBidders) s /\
  (forall bidders e s', AddAllowedBidders auctionId bidders s = Done (Some e) s' -> s' = s) /\
  (forall bidders s', AddAllowedBidders auctionId bidders s = Done None s' ->
     exists a',
       s' = with_Auctions (<[GetId a := a']> (Auctions s)) s /\
       a' = SetAllowedBidders a (GetAllowedBidders a ++ bidders) /\
       GetAllowedBidders a' = GetAllowedBidders a ++ bidders).
Proof.
  intros Hget. unfold AddAllowedBidders, bind, GetAuction, gets, ret. rewrite Hget.
  split; [reflexivity|]. split.
  - intros bidders e s'. destruct (length bidders =? 0)%nat; [congruence|].
    destruct (ValidateAllowedBidders _ _); [congruence|]. discriminate.
  - intros bidders s'. destruct (length bidders =? 0)%nat; [discriminate|].
    destruct (ValidateAllowedBidders _ _); [discriminate|].
    intros [= <-]. exists (SetAllowedBidders a (GetAllowedBidders a ++ bidders)).
    split; [destruct a; reflexivity|]. split; [reflexivity|].
    destruct a; reflexivity.
Qed.

Lemma ValidateAllowedBidders_ok bidders sellingAmt :
  ValidateAllowedBidders bidders sellingAmt = None ->
  Forall (cap_within sellingAmt) bidders.
Proof.
  induction bidders as [|b rest IH]; simpl; [constructor|].
  destruct (MaxBidAmount b) as [v|] eqn:Hv; [|discriminate].
  destruct (Z.ltb_spec 0 v); simpl; [|discriminate].
  destruct (Z.ltb_spec sellingAmt v); [discriminate|].
  intros Hrest. constructor; [|auto]. exists v. split; [exact Hv|lia].
Qed.

(** A bidder is a key of the map of allowed bidders exactly when the list has
    an entry for it. *)
Lemma GetAllowedBiddersMap_is_Some a bidder :
  is_Some (GetAllowedBiddersMap a !! bidder) <->
  exists ab, ab ∈ GetAllowedBidders a /\ Bidder ab = bidder.
Proof.
  without_given_methods.
  unfold GetAllowedBiddersMap.
  assert (Hgen : forall (l : list AllowedBidder) (m : gmap string Int),
            is_Some (foldl (fun m ab => <[Bidder ab := MaxBidAmount ab]> m) m l !! bidder) <->
            is_Some (m !! bidder) \/ exists ab, ab ∈ l /\ Bidder ab = bidder).
  { induction l as [|x l IH]; intros m; simpl.
    - split; [auto|]. intros [H | (ab & Hin & _)]; [exact H|]. inversion Hin.
    - rewrite IH, lookup_insert_is_Some. split.
      + intros [[Heq | [_ Hm]] | (ab & Hin & Hb)].
        * right. exists x. split; [left|exact Heq].
        * left. exact Hm.
        * right. exists ab. split; [right; exact Hin|exact Hb].
      + intros [Hm | (ab & Hin & Hb)].
        * destruct (decide (Bidder x = bidder)); [left; left; assumption|].
          left. right. auto.
        * apply elem_of_cons in Hin as [-> | Hin]; [left; left; exact Hb|].
          right. exists ab. auto. }
  rewrite Hgen, lookup_empty. split.
  - intros [[? H] | H]; [discriminate|exact H].
  - intros H. right. exact H.
Qed.

Lemma SetMaxBidAmount_caps a bidder v :
  0 < v ->
  Forall cap_positive (GetAllowedBidders a) ->
  Forall cap_positive (GetAllowedBidders (SetMaxBidAmount a bidder (Some v))).
Proof.
  intros Hv Hall.
  assert (Heq : GetAllowedBidders (SetMaxBidAmount a bidder (Some v)) =
                map (fun ab => if String.eqb (Bidder ab) bidder
                               then mkAllowedBidder (Bidder ab) (Some v) else ab)
                  (GetAllowedBidders a)) by (destruct a; reflexivity).
  rewrite Heq. apply Forall_map. eapply Forall_impl; [exact Hall|].
  intros ab Hab. simpl. destruct (String.eqb (Bidder ab) bidder); [|exact Hab].
  exists v. split; [reflexivity|exact Hv].
Qed.

(** C3 (as amended). After a successful AddAllowedBidders every entry of the
    list has a positive cap that does not exceed the selling amount, provided
    the entries already there had.  UpdateAllowedBidder rejects a cap that is
    nil or not positive with InvalidMaxBidAmount, and that is its only check on
    the cap: a positive cap for a listed bidder is accepted and stored whatever
    its size, so after a successful update every entry has a positive cap,
    provided the entries already there had. *)
Theorem allowed_bidder_caps (s : State B) (auctionId : Z) (a : AuctionI) :
  Auctions s !! auctionId = Some a ->
  (forall bidders s',
     Forall (cap_within (Amount (GetSellingCoin a))) (GetAllowedBidders a) ->
     AddAllowedBidders auctionId bidders s = Done None s' ->
     exists a', Auctions s' !! GetId a = Some a' /\
                GetSellingCoin a' = GetSellingCoin a /\
                Forall (cap_within (Amount (GetSellingCoin a'))) (GetAllowedBidders a')) /\
  (forall bidder maxBidAmount,
     ~ cap_positive (mkAllowedBidder bidder maxBidAmount) ->
     UpdateAllowedBidder auctionId bidder maxBidAmount s
       = Done (Some ErrInvalidMaxBidAmount) s) /\
  (forall bidder v,
     0 < v -> (exists ab, ab ∈ GetAllowedBidders a /\ Bidder ab = bidder) ->
     UpdateAllowedBidder auctionId bidder (Some v) s
       = Done None (with_Auctions
                      (<[GetId a := SetMaxBidAmount a bidder (Some v)]> (Auctions s)) s)) /\
  (forall bidder maxBidAmount s',
     Forall cap_positive (GetAllowedBidders a) ->
     UpdateAllowedBidder auctionId bidder maxBidAmount s = Done None s' ->
     exists a', Auctions s' !! GetId a = Some a' /\
                GetSellingCoin a' = GetSellingCoin a /\
                Forall cap_positive (GetAllowedBidders a')).
Proof.
  intros Hget. repeat split.
  - intros bidders s' Hold.
    unfold AddAllowedBidders, bind, GetAuction, gets, ret. rewrite Hget.
    destruct (length bidders =? 0)%nat; [discriminate|].
    destruct (ValidateAllowedBidders _ _) eqn:Hval; [discriminate|].
    intros [= <-]. exists (SetAllowedBidders a (GetAllowedBidders a ++ bidders)).
    split; [destruct a; apply lookup_insert_eq|].
    split; [destruct a; reflexivity|].
    replace (GetSellingCoin (SetAllowedBidders a (GetAllowedBidders a ++ bidders)))
      with (GetSellingCoin a) by (destruct a; reflexivity).
    replace (GetAllowedBidders (SetAllowedBidders a (GetAllowedBidders a ++ bidders)))
      with (GetAllowedBidders a ++ bidders) by (destruct a; reflexivity).
    apply Forall_app. split; [exact Hold|]. apply ValidateAllowedBidders_ok, Hval.
  - intros bidder maxBidAmount Hbad.
    unfold UpdateAllowedBidder, bind, GetAuction, gets, ret. rewrite Hget.
    destruct maxBidAmount as [v|]; [|reflexivity]. simpl.
    destruct (Z.ltb_spec 0 v); [|reflexivity].
    exfalso. apply Hbad. exists v. auto.
  - intros bidder v Hv Hin.
    unfold UpdateAllowedBidder, bind, GetAuction, gets, ret. rewrite Hget. simpl.
    destruct (Z.ltb_spec 0 v); [|lia]. simpl.
    apply GetAllowedBiddersMap_is_Some in Hin as [cap ->].
    destruct a; reflexivity.
  - intros bidder maxBidAmount s' Hold.
    unfold UpdateAllowedBidder, bind, GetAuction, gets, ret. rewrite Hget.
    destruct maxBidAmount as [v|]; [|discriminate]. simpl.
    destruct (Z.ltb_spec 0 v); [|discriminate]. simpl.
    destruct (GetAllowedBiddersMap a !! bidder); [|discriminate].
    intros [= <-]. exists (SetMaxBidAmount a bidder (Some v)).
    split; [destruct a; apply lookup_insert_eq|].
    split; [destruct a; reflexivity|].
    apply SetMaxBidAmount_caps; assumption.
Qed.

(** ** Extended rounds *)

(** C8. ExtendRound appends exactly one entry to the end times of the batch
    auction, the block time plus [extended_period] days of 24 hours, keeps every
    other field of the auction, and stores the auction under its id; the rest
    of the store is untouched. *)
Theorem ExtendRound_appends_one_end_time (s : State B) (ba : BatchAuction) :
  exists ba',
    ExtendRound ba s
      = Done ba' (with_Auctions
                    (<[Id (BaseAuction_ ba) := BatchAuctionI ba']> (Auctions s)) s) /\
    EndTimes (BaseAuction_ ba')
      = EndTimes (BaseAuction_ ba)
          ++ [BlockTime s + ExtendedPeriod (StoredParams s) * (24 * 60 * 60 * 1000000000)] /\
    length (EndTimes (BaseAuction_ ba')) = S (length (EndTimes (BaseAuction_ ba))) /\
    Id (BaseAuction_ ba') = Id (BaseAuction_ ba) /\
    Type_ (BaseAuction_ ba') = Type_ (BaseAuction_ ba) /\
    AllowedBidders (BaseAuction_ ba') = AllowedBidders (BaseAuction_ ba) /\
    Auctioneer (BaseAuction_ ba') = Auctioneer (BaseAuction_ ba) /\
    SellingReserveAddress_ (BaseAuction_ ba') = SellingReserveAddress_ (BaseAuction_ ba) /\
    PayingReserveAddress_ (BaseAuction_ ba') = PayingReserveAddress_ (BaseAuction_ ba) /\
    StartPrice (BaseAuction_ ba') = StartPrice (BaseAuction_ ba) /\
    SellingCoin (BaseAuction_ ba') = SellingCoin (BaseAuction_ ba) /\
    PayingCoinDenom (BaseAuction_ ba') = PayingCoinDenom (BaseAuction_ ba) /\
    VestingReserveAddress_ (BaseAuction_ ba') = VestingReserveAddress_ (BaseAuction_ ba) /\
    VestingSchedules (BaseAuction_ ba') = VestingSchedules (BaseAuction_ ba) /\
    RemainingSellingCoin (BaseAuction_ ba') = RemainingSellingCoin (BaseAuction_ ba) /\
    StartTime (BaseAuction_ ba') = StartTime (BaseAuction_ ba) /\
    Status (BaseAuction_ ba') = Status (BaseAuction_ ba) /\
    MinBidPrice ba' = MinBidPrice ba /\
    MatchedPrice ba' = MatchedPrice ba /\
    MaxExtendedRound ba' = MaxExtendedRound ba /\
    ExtendedRoundRate ba' = ExtendedRoundRate ba.
Proof.
  exists (SetEndTimes ba (EndTimes (BaseAuction_ ba)
            ++ [AddDate_days (BlockTime s) (ExtendedPeriod (StoredParams s))])).
  split; [reflexivity|]. simpl.
  split; [reflexivity|]. split; [|repeat split].
  rewrite length_app. simpl. lia.
Qed.

(** ** The vesting-queue store *)

Lemma vq_key_ltb_same x' x :
  vq_AuctionId x' = vq_AuctionId x -> ReleaseTime x' = ReleaseTime x ->
  vq_key_ltb x' x = false /\ vq_key_eqb x' x = true.
Proof.
  intros Hid Hrt. unfold vq_key_ltb, vq_key_eqb. rewrite Hid, Hrt.
  rewrite Z.ltb_irrefl, !Z.eqb_refl, Z.ltb_irrefl. auto.
Qed.

Lemma vq_key_ltb_after y x' :
  vq_key_lt y x' -> vq_key_ltb x' y = false /\ vq_key_eqb x' y = false.
Proof.
  unfold vq_key_lt, vq_key_ltb, vq_key_eqb. intros [Hlt | [Heq Hlt]].
  - destruct (Z.ltb_spec (vq_AuctionId x') (vq_AuctionId y)); [lia|].
    destruct (Z.eqb_spec (vq_AuctionId x') (vq_AuctionId y)); [lia|]. auto.
  - destruct (Z.ltb_spec (vq_AuctionId x') (vq_AuctionId y)); [lia|].
    destruct (Z.ltb_spec (ReleaseTime x') (ReleaseTime y)); [lia|].
    destruct (Z.eqb_spec (ReleaseTime x') (ReleaseTime y)); [lia|].
    rewrite !andb_false_r. auto.
Qed.

Lemma vq_key_lt_same_l x x' y :
  vq_AuctionId x' = vq_AuctionId x -> ReleaseTime x' = ReleaseTime x ->
  vq_key_lt x y -> vq_key_lt x' y.
Proof. unfold vq_key_lt. intros -> ->. auto. Qed.

Lemma vq_key_lt_same_r x x' y :
  vq_AuctionId x' = vq_AuctionId x -> ReleaseTime x' = ReleaseTime x ->
  vq_key_lt y x -> vq_key_lt y x'.
Proof. unfold vq_key_lt. intros -> ->. auto. Qed.

(** Writing an entry whose key is in the store replaces the entry in place. *)
Lemma vq_put_replace l1 x l2 x' :
  vq_sorted (l1 ++ x :: l2) ->
  vq_AuctionId x' = vq_AuctionId x -> ReleaseTime x' = ReleaseTime x ->
  vq_put x' (l1 ++ x :: l2) = l1 ++ x' :: l2.
Proof.
  intros Hs Hid Hrt. induction l1 as [|y l1 IH]; simpl.
  - destruct (vq_key_ltb_same _ _ Hid Hrt) as [-> ->]. reflexivity.
  - apply StronglySorted_cons in Hs as [Hy Hs].
    assert (Hlt : vq_key_lt y x').
    { apply (vq_key_lt_same_r x); [assumption..|].
      rewrite Forall_forall in Hy. apply Hy. set_solver. }
    destruct (vq_key_ltb_after _ _ Hlt) as [-> ->]. rewrite IH by exact Hs. reflexivity.
Qed.

Lemma vq_sorted_replace l1 x l2 x' :
  vq_sorted (l1 ++ x :: l2) ->
  vq_AuctionId x' = vq_AuctionId x -> ReleaseTime x' = ReleaseTime x ->
  vq_sorted (l1 ++ x' :: l2).
Proof.
  unfold vq_sorted. intros Hs Hid Hrt.
  apply StronglySorted_app in Hs as (Hcross & Hl1 & Hxl2).
  apply StronglySorted_cons in Hxl2 as [Hx Hl2].
  apply StronglySorted_app. split; [|split].
  - intros x1 x2 H1 H2. apply elem_of_cons in H2 as [-> | H2].
    + apply (vq_key_lt_same_r x); [assumption..|]. apply Hcross; set_solver.
    + apply Hcross; set_solver.
  - exact Hl1.
  - apply StronglySorted_cons. split; [|exact Hl2].
    eapply Forall_impl; [exact Hx|]. intros y. apply vq_key_lt_same_l; assumption.
Qed.

Lemma filter_split {A} (P : A -> Prop) `{!forall x, Decision (P x)} (l q1 q2 : list A) x :
  filter P l = q1 ++ x :: q2 ->
  exists l1 l2, l = l1 ++ x :: l2 /\ filter P l1 = q1 /\ filter P l2 = q2.
Proof.
  revert q1. induction l as [|y l IH]; intros q1 Hf.
  - rewrite filter_nil in Hf. destruct q1; discriminate.
  - rewrite filter_cons in Hf. destruct (decide (P y)) as [Hy|Hy].
    + destruct q1 as [|z q1]; simpl in Hf.
      * injection Hf as -> <-. exists [], l. auto.
      * injection Hf as -> Hf. destruct (IH _ Hf) as (l1 & l2 & -> & <- & <-).
        exists (z :: l1), l2. rewrite filter_cons_True by exact Hy. auto.
    + destruct (IH _ Hf) as (l1 & l2 & -> & <- & <-).
      exists (y :: l1), l2. rewrite filter_cons_False by exact Hy. auto.
Qed.

(** Rewriting an entry of an auction's queue under its own key changes that
    entry of the queue and no other. *)
Lemma vq_by_auction_put id store q1 x q2 x' :
  vq_sorted store ->
  vq_by_auction id store = q1 ++ x :: q2 ->
  vq_AuctionId x' = vq_AuctionId x -> ReleaseTime x' = ReleaseTime x ->
  vq_by_auction id (vq_put x' store) = q1 ++ x' :: q2 /\ vq_sorted (vq_put x' store).
Proof.
  without_given_methods.
  intros Hs Hq Hid Hrt. unfold vq_by_auction in *.
  assert (Hx : vq_AuctionId x = id).
  { assert (Hin : x ∈ filter (fun vq => vq_AuctionId vq = id) store)
      by (rewrite Hq; set_solver).
    apply list_elem_of_filter in Hin as [Hin _]. exact Hin. }
  destruct (filter_split _ _ _ _ _ Hq) as (l1 & l2 & -> & <- & <-).
  rewrite vq_put_replace by assumption. split.
  - rewrite !filter_app. f_equal.
    rewrite filter_cons_True by congruence. reflexivity.
  - eapply vq_sorted_replace; eassumption.
Qed.

(** The queue of one auction is in strictly increasing release-time order. *)
Lemma vq_by_auction_release_order id store :
  vq_sorted store ->
  StronglySorted (fun x y => ReleaseTime x < ReleaseTime y) (vq_by_auction id store).
Proof.
  unfold vq_sorted, vq_by_auction. induction 1 as [|x l Hl IH Hx].
  - rewrite filter_nil. constructor.
  - rewrite filter_cons. destruct (decide (vq_AuctionId x = id)) as [Hid|]; [|exact IH].
    constructor; [exact IH|].
    apply Forall_forall. intros y Hy. apply list_elem_of_filter in Hy as [Hyid Hy].
    rewrite Forall_forall in Hx. destruct (Hx y Hy) as [Hlt | [_ Hlt]]; [lia|exact Hlt].
Qed.

(** ** The vesting releaser *)

Lemma due_iff now vq : due now vq <-> ReleaseTime vq <= now /\ Released vq = false.
Proof.
  unfold due, ShouldRelease, After. rewrite andb_true_iff, !negb_true_iff, Z.ltb_ge.
  reflexivity.
Qed.

Lemma release_due_key now vq :
  vq_AuctionId (release_due now vq) = vq_AuctionId vq /\
  ReleaseTime (release_due now vq) = ReleaseTime vq.
Proof. unfold release_due. destruct (ShouldRelease vq now); auto. Qed.

Lemma last_due_cons now vq rest :
  rest <> [] -> last_due now (vq :: rest) = last_due now rest.
Proof. intros H. destruct rest; [contradiction|reflexivity]. Qed.

Lemma release_loop_cons vqsLen i vq rest auction (s : State B) :
  release_loop vqsLen i (vq :: rest) auction s =
    if ShouldRelease vq (BlockTime s) then
      match SendCoins (Bank s) (GetVestingReserveAddress auction) (GetAuctioneer auction)
              (NewCoins (PayingCoin vq)) with
      | inl e =>
          Done (Some (Wrap e "failed to release paying coin to the auctioneer"), auction) s
      | inr b =>
          let s2 := with_VestingQueues (vq_put (SetReleased vq true) (VestingQueues s))
                      (with_Bank b s) in
          if i =? vqsLen - 1 then
            release_loop vqsLen (i + 1) rest (SetStatus auction AuctionStatusFinished)
              (with_Auctions (<[GetId auction := SetStatus auction AuctionStatusFinished]>
                                (Auctions s2)) s2)
          else release_loop vqsLen (i + 1) rest auction s2
      end
    else release_loop vqsLen (i + 1) rest auction s.
Proof.
  simpl. unfold bind, GetBlockTime, gets, bankSendCoins, SetVestingQueue, SetAuction, modify.
  destruct (ShouldRelease vq (BlockTime s)); [|reflexivity].
  destruct (SendCoins _ _ _ _); [reflexivity|]. simpl.
  destruct (i =? vqsLen - 1); [|reflexivity].
  destruct auction; reflexivity.
Qed.

Lemma SetStatus_addresses auction st :
  GetVestingReserveAddress (SetStatus auction st) = GetVestingReserveAddress auction /\
  GetAuctioneer (SetStatus auction st) = GetAuctioneer auction /\
  GetId (SetStatus auction st) = GetId auction /\
  GetStatus (SetStatus auction st) = st.
Proof. destruct auction; auto. Qed.

(** A refused transfer ends the scan with the wrapped error of the bank. *)
Lemma release_loop_fails rest vqsLen i auction (s : State B) e :
  pay_tranches (Bank s) (GetVestingReserveAddress auction) (GetAuctioneer auction)
    (filter (due (BlockTime s)) rest) = inl e ->
  exists a' s',
    release_loop vqsLen i rest auction s
      = Done (Some (Wrap e "failed to release paying coin to the auctioneer"), a') s'.
Proof.
  revert i auction s. induction rest as [|vq rest IH]; intros i auction s Hpay.
  - rewrite filter_nil in Hpay. discriminate.
  - rewrite release_loop_cons. rewrite filter_cons in Hpay.
    destruct (decide (due (BlockTime s) vq)) as [Hdue|Hdue].
    + unfold due in Hdue. rewrite Hdue. simpl in Hpay.
      destruct (SendCoins _ _ _ _) as [e1|b]; [injection Hpay as ->; eauto|].
      cbv zeta. destruct (i =? vqsLen - 1).
      * apply IH. simpl.
        destruct (SetStatus_addresses auction AuctionStatusFinished) as (-> & -> & _).
        exact Hpay.
      * apply IH. simpl. exact Hpay.
    + unfold due in Hdue. apply not_true_is_false in Hdue. rewrite Hdue.
      apply IH, Hpay.
Qed.

(** When the bank accepts every transfer, the scan releases the due entries. *)
Lemma release_loop_releases rest pre auction (s : State B) b' :
  vq_sorted (VestingQueues s) ->
  vq_by_auction (GetId auction) (VestingQueues s) = (release_due (BlockTime s) <$> pre) ++ rest ->
  pay_tranches (Bank s) (GetVestingReserveAddress auction) (GetAuctioneer auction)
    (filter (due (BlockTime s)) rest) = inr b' ->
  exists s',
    release_loop (Z.of_nat (length pre + length rest)) (Z.of_nat (length pre)) rest auction s
      = Done (None, if last_due (BlockTime s) rest
                    then SetStatus auction AuctionStatusFinished else auction) s' /\
    Bank s' = b' /\
    vq_sorted (VestingQueues s') /\
    vq_by_auction (GetId auction) (VestingQueues s')
      = release_due (BlockTime s) <$> (pre ++ rest) /\
    Auctions s' = (if last_due (BlockTime s) rest
                   then <[GetId auction := SetStatus auction AuctionStatusFinished]> (Auctions s)
                   else Auctions s) /\
    releaser_frame s s'.
Proof.
  revert pre s. induction rest as [|vq rest IH]; intros pre s Hsorted Hq Hpay.
  - exists s. rewrite filter_nil in Hpay. injection Hpay as <-.
    rewrite app_nil_r in *. unfold last_due, releaser_frame. simpl. auto 10.
  - rewrite release_loop_cons. rewrite filter_cons in Hpay.
    assert (Hpre : pre ++ vq :: rest = (pre ++ [vq]) ++ rest)
      by (rewrite <- app_assoc; reflexivity).
    assert (Hlen : (length pre + length (vq :: rest) = length (pre ++ [vq]) + length rest)%nat)
      by (rewrite length_app; simpl; lia).
    assert (Hidx : Z.of_nat (length pre) + 1 = Z.of_nat (length (pre ++ [vq])))
      by (rewrite length_app; simpl; lia).
    destruct (decide (due (BlockTime s) vq)) as [Hdue|Hdue]; unfold due in Hdue.
    + rewrite Hdue. simpl in Hpay.
      destruct (SendCoins _ _ _ _) as [e1|b]; [discriminate|]. cbv zeta.
      assert (Hrd : release_due (BlockTime s) vq = SetReleased vq true)
        by (unfold release_due; rewrite Hdue; reflexivity).
      destruct (vq_by_auction_put (GetId auction) (VestingQueues s)
                  (release_due (BlockTime s) <$> pre) vq rest (SetReleased vq true)
                  Hsorted Hq eq_refl eq_refl) as [Hq2 Hsorted2].
      assert (Hq2' : vq_by_auction (GetId auction)
                       (vq_put (SetReleased vq true) (VestingQueues s))
                     = (release_due (BlockTime s) <$> (pre ++ [vq])) ++ rest).
      { rewrite Hq2, fmap_app, <- app_assoc. simpl. rewrite Hrd. reflexivity. }
      destruct rest as [|vq2 rest].
      * replace (Z.of_nat (length pre) =? Z.of_nat (length pre + length [vq]) - 1)
          with true by (symmetry; apply Z.eqb_eq; simpl; lia).
        simpl release_loop. unfold ret.
        assert (Hld : last_due (BlockTime s) [vq] = true) by exact Hdue.
        rewrite Hld. eexists. split; [reflexivity|].
        rewrite filter_nil in Hpay. injection Hpay as <-. simpl.
        split; [reflexivity|]. split; [exact Hsorted2|].
        split; [rewrite Hq2', app_nil_r; reflexivity|].
        split; [reflexivity|]. unfold releaser_frame. simpl. auto.
      * replace (Z.of_nat (length pre) =? Z.of_nat (length pre + length (vq :: vq2 :: rest)) - 1)
          with false by (symmetry; apply Z.eqb_neq; simpl; lia).
        rewrite Hlen, Hidx, Hpre.
        rewrite last_due_cons by discriminate.
        destruct (IH (pre ++ [vq])
                    (with_VestingQueues (vq_put (SetReleased vq true) (VestingQueues s))
                       (with_Bank b s)) Hsorted2 Hq2' Hpay)
          as (s' & Hrun & Hbank & Hs' & Hq' & Hauc & Hframe).
        exists s'. split; [exact Hrun|]. split; [exact Hbank|]. split; [exact Hs'|].
        split; [exact Hq'|]. split; [exact Hauc|].
        unfold releaser_frame in *. simpl in Hframe. exact Hframe.
    + apply not_true_is_false in Hdue. rewrite Hdue.
      assert (Hq2' : vq_by_auction (GetId auction) (VestingQueues s)
                     = (release_due (BlockTime s) <$> (pre ++ [vq])) ++ rest).
      { rewrite Hq, fmap_app, <- app_assoc. simpl.
        replace (release_due (BlockTime s) vq) with vq
          by (unfold release_due; rewrite Hdue; reflexivity).
        reflexivity. }
      rewrite Hlen, Hidx, Hpre.
      destruct (IH (pre ++ [vq]) s Hsorted Hq2' Hpay)
        as (s' & Hrun & Hrest).
      exists s'. destruct rest as [|vq2 rest].
      * unfold last_due in *. simpl in *. rewrite Hdue. auto.
      * rewrite last_due_cons by discriminate. auto.
Qed.

Lemma release_due_released now vq :
  Released (release_due now vq) = Released vq || (ReleaseTime vq <=? now).
Proof.
  unfold release_due, ShouldRelease, After.
  destruct (Z.ltb_spec now (ReleaseTime vq)), (Z.leb_spec (ReleaseTime vq) now);
    try lia; destruct (Released vq) eqn:Hr; simpl; rewrite ?Hr; reflexivity.
Qed.

Lemma AllocateVestingPayingCoin_run auction (s : State B) :
  AllocateVestingPayingCoin auction s =
    release_loop (Z.of_nat (length (vq_by_auction (GetId auction) (VestingQueues s)))) 0
      (vq_by_auction (GetId auction) (VestingQueues s)) auction s.
Proof. reflexivity. Qed.

(** C6. For an auction in Vesting status whose queue, read in release-time
    order, still has its last entry unreleased, a run of the releaser that
    returns no error has transferred the paying coin of every entry with
    [release_time <= block_time] and [released = false], in queue order, from
    the vesting reserve to the auctioneer, has marked exactly those entries
    released, and leaves the auction Finished exactly when every entry of its
    queue is released; it is then stored with that status.  An auction that
    stays in Vesting status keeps a queue in key order whose last entry is
    unreleased, so the next block finds it as this one did. *)
Theorem AllocateVestingPayingCoin_releases_due
    (s s' : State B) (auction auction' : AuctionI) (vqLast : VestingQueue) :
  vq_sorted (VestingQueues s) ->
  GetStatus auction = AuctionStatusVesting ->
  last (vq_by_auction (GetId auction) (VestingQueues s)) = Some vqLast ->
  Released vqLast = false ->
  AllocateVestingPayingCoin auction s = Done (None, auction') s' ->
  StronglySorted (fun x y => ReleaseTime x < ReleaseTime y)
    (vq_by_auction (GetId auction) (VestingQueues s)) /\
  vq_sorted (VestingQueues s') /\
  pay_tranches (Bank s) (GetVestingReserveAddress auction) (GetAuctioneer auction)
    (filter (fun vq => ReleaseTime vq <= BlockTime s /\ Released vq = false)
       (vq_by_auction (GetId auction) (VestingQueues s))) = inr (Bank s') /\
  vq_by_auction (GetId auction) (VestingQueues s')
    = map (fun vq => if bool_decide (ReleaseTime vq <= BlockTime s /\ Released vq = false)
                     then SetReleased vq true else vq)
        (vq_by_auction (GetId auction) (VestingQueues s)) /\
  (GetStatus auction' = AuctionStatusFinished <->
   Forall (fun vq => Released vq = true) (vq_by_auction (GetId auction) (VestingQueues s'))) /\
  (GetStatus auction' = AuctionStatusFinished \/ GetStatus auction' = AuctionStatusVesting) /\
  (GetStatus auction' = AuctionStatusFinished ->
   Auctions s' !! GetId auction = Some auction') /\
  (GetStatus auction' = AuctionStatusVesting ->
   auction' = auction /\ Auctions s' = Auctions s /\
   last (vq_by_auction (GetId auction) (VestingQueues s')) = Some vqLast).
Proof.
  without_given_methods.
  intros Hsorted Hvesting Hlast Hunreleased Hrun.
  set (queue := vq_by_auction (GetId auction) (VestingQueues s)) in *.
  pose proof (vq_by_auction_release_order (GetId auction) _ Hsorted) as Horder.
  fold queue in Horder.
  rewrite AllocateVestingPayingCoin_run in Hrun. fold queue in Hrun.
  assert (Hfilter : filter (fun vq => ReleaseTime vq <= BlockTime s /\ Released vq = false) queue
                    = filter (due (BlockTime s)) queue).
  { apply list_filter_iff. intros vq. symmetry. apply due_iff. }
  assert (Hmap : map (fun vq => if bool_decide (ReleaseTime vq <= BlockTime s
                                                /\ Released vq = false)
                                then SetReleased vq true else vq) queue
                 = release_due (BlockTime s) <$> queue).
  { apply map_ext. intros vq. unfold release_due.
    destruct (ShouldRelease vq (BlockTime s)) eqn:Hd.
    - rewrite bool_decide_eq_true_2 by (apply due_iff; exact Hd). reflexivity.
    - rewrite bool_decide_eq_false_2; [reflexivity|].
      intros Hc. apply due_iff in Hc. unfold due in Hc. congruence. }
  rewrite Hfilter, Hmap.
  destruct (pay_tranches (Bank s) (GetVestingReserveAddress auction) (GetAuctioneer auction)
              (filter (due (BlockTime s)) queue)) as [e|b'] eqn:Hpay.
  { destruct (release_loop_fails queue (Z.of_nat (length queue)) 0 auction s e Hpay)
      as (a1 & s1 & Hfail). rewrite Hfail in Hrun. discriminate. }
  destruct (release_loop_releases queue [] auction s b' Hsorted eq_refl Hpay)
    as (s1 & Hok & Hbank & Hsorted' & Hq' & Hauc & _).
  change (Z.of_nat (length [] + length queue)) with (Z.of_nat (length queue)) in Hok.
  change (Z.of_nat (length (@nil VestingQueue))) with 0 in Hok.
  rewrite Hok in Hrun. injection Hrun as <- <-.
  change ([] ++ queue) with queue in Hq'. rewrite Hq'.
  split; [exact Horder|]. split; [exact Hsorted'|].
  split; [rewrite Hbank; reflexivity|]. split; [reflexivity|].
  assert (Hld : last_due (BlockTime s) queue = ShouldRelease vqLast (BlockTime s))
    by (unfold last_due; rewrite Hlast; reflexivity).
  rewrite Hld in *.
  apply last_Some in Hlast as [front Hfront].
  destruct (ShouldRelease vqLast (BlockTime s)) eqn:Hdue.
  - destruct (SetStatus_addresses auction AuctionStatusFinished) as (_ & _ & Hid & Hst).
    split; [|split; [auto|split]].
    + split; [intros _|intros _; exact Hst].
      apply due_iff in Hdue as [Hrt _].
      rewrite Hfront in Horder. apply StronglySorted_app in Horder as (Hcross & _ & _).
      apply Forall_fmap, Forall_forall. intros vq Hvq. simpl.
      rewrite release_due_released. apply orb_true_iff. right. apply Z.leb_le.
      rewrite Hfront in Hvq. apply elem_of_app in Hvq as [Hvq | Hvq].
      * specialize (Hcross vq vqLast Hvq). assert (ReleaseTime vq < ReleaseTime vqLast).
        { apply Hcross. set_solver. }
        lia.
      * apply list_elem_of_singleton in Hvq as ->. exact Hrt.
    + intros _. rewrite Hauc. apply lookup_insert_eq.
    + rewrite Hst. discriminate.
  - split; [|split; [auto|split]].
    + rewrite Hvesting. split; [discriminate|]. intros Hall. exfalso.
      rewrite Hfront, fmap_app in Hall. apply Forall_app in Hall as [_ Hall].
      apply Forall_cons in Hall as [Hrel _]. simpl in Hrel.
      unfold release_due in Hrel. rewrite Hdue in Hrel. congruence.
    + rewrite Hvesting. discriminate.
    + intros _. split; [reflexivity|]. split; [exact Hauc|].
      rewrite ?Hq', Hfront, fmap_app. simpl. rewrite last_snoc.
      unfold release_due. rewrite Hdue. reflexivity.
Qed.

(** C4. When the bank refuses the transfer of a due tranche of an auction in
    Vesting status, AllocateVestingPayingCoin stops and returns the refusal,
    wrapped, as an error; the vesting step of the end-of-block sweep escalates
    that error as a panic. *)
Theorem vesting_transfer_failure_panics (s : State B) (auction : AuctionI) (e : Error) :
  GetStatus auction = AuctionStatusVesting ->
  pay_tranches (Bank s) (GetVestingReserveAddress auction) (GetAuctioneer auction)
    (filter (fun vq => ReleaseTime vq <= BlockTime s /\ Released vq = false)
       (vq_by_auction (GetId auction) (VestingQueues s))) = inl e ->
  (exists a' s',
     AllocateVestingPayingCoin auction s
       = Done (Some (Wrap e "failed to release paying coin to the auctioneer"), a') s') /\
  EndBlockerVesting auction s
    = Panicked (Wrap e "failed to release paying coin to the auctioneer").
Proof.
  intros Hvesting Hpay.
  assert (Hfilter : filter (fun vq => ReleaseTime vq <= BlockTime s /\ Released vq = false)
                      (vq_by_auction (GetId auction) (VestingQueues s))
                    = filter (due (BlockTime s))
                        (vq_by_auction (GetId auction) (VestingQueues s))).
  { apply list_filter_iff. intros vq. symmetry. apply due_iff. }
  rewrite Hfilter in Hpay.
  destruct (release_loop_fails _
              (Z.of_nat (length (vq_by_auction (GetId auction) (VestingQueues s)))) 0
              auction s e Hpay) as (a1 & s1 & Hfail).
  rewrite <- AllocateVestingPayingCoin_run in Hfail.
  split; [eauto|].
  unfold EndBlockerVesting. rewrite bool_decide_eq_true_2 by exact Hvesting.
  unfold bind. rewrite Hfail. reflexivity.
Qed.

(** ** The last round of a batch auction *)

(** A batch auction whose end times already number [1 + max_extended_round]
    is settled with the latest clearing, and FinishBatchAuction does not stop
    there: with no matched length on record it clears again and extends the
    round, storing the settled auction with one more end time. *)
Lemma FinishBatchAuction_final_round_continues
    (ba ba1 ba2 : BatchAuction) (a0 : AuctionI) (mInfo m2 : MatchingInfo)
    (s s0 s1 s2 : State B) :
  (MaxExtendedRound ba + 1) mod 2 ^ 32
    = Z.of_nat (length (EndTimes (BaseAuction_ ba))) mod 2 ^ 32 ->
  CalculateBatchAllocation (BatchAuctionI ba) s = Done (mInfo, a0) s0 ->
  settlement AccAddressFromBech32 ApplyVestingSchedules a0 mInfo s0
    = Done (BatchAuctionI ba1) s1 ->
  default 0 (MatchedBidsLen s1 !! Id (BaseAuction_ ba1)) = 0 ->
  CalculateBatchAllocation (BatchAuctionI ba1) s1 = Done (m2, BatchAuctionI ba2) s2 ->
  exists ba3,
    FinishBatchAuction AccAddressFromBech32 CalculateBatchAllocation
      ApplyVestingSchedules (BatchAuctionI ba) s
      = Done (BatchAuctionI ba3)
          (with_Auctions (<[Id (BaseAuction_ ba2) := BatchAuctionI ba3]> (Auctions s2)) s2) /\
    EndTimes (BaseAuction_ ba3)
      = EndTimes (BaseAuction_ ba2)
          ++ [AddDate_days (BlockTime s2) (ExtendedPeriod (StoredParams s2))] /\
    Status (BaseAuction_ ba3) = Status (BaseAuction_ ba2).
Proof.
  intros Hguard Hcalc Hsettle Hlast Hcalc2.
  exists (SetEndTimes ba2 (EndTimes (BaseAuction_ ba2)
            ++ [AddDate_days (BlockTime s2) (ExtendedPeriod (StoredParams s2))])).
  split; [|split; reflexivity].
  unfold FinishBatchAuction.
  rewrite (bind_Done _ _ s ba s eq_refl).
  change (GetEndTimes (BatchAuctionI ba)) with (EndTimes (BaseAuction_ ba)).
  apply Z.eqb_eq in Hguard. rewrite Hguard.
  erewrite bind_Done; cycle 1.
  { erewrite bind_Done by exact Hcalc. exact Hsettle. }
  erewrite bind_Done by reflexivity.
  change (GetId (BatchAuctionI ba1)) with (Id (BaseAuction_ ba1)).
  rewrite Hlast. change (0 =? 0) with true. cbv iota.
  erewrite bind_Done by exact Hcalc2.
  reflexivity.
Qed.

(** Facts that involve some of the keeper methods taken as given are proved
    without the others. *)
Ltac without_unused_methods :=
  try clear SellingReserveAddress; try clear PayingReserveAddress;
  try clear VestingReserveAddress; try clear AccAddressFromBech32;
  try clear CalculateFixedPriceAllocation; try clear CalculateBatchAllocation;
  try clear ApplyVestingSchedules.

(** ** The transfers of a settlement *)













(** ** More on the vesting releaser *)

(** The scan passes over entries that are not due. *)
Lemma release_loop_nothing_due vqs vqsLen i auction (s : State B) :
  Forall (fun vq => ShouldRelease vq (BlockTime s) = false) vqs ->
  release_loop vqsLen i vqs auction s = Done (None, auction) s.
Proof.
  intros Hall. revert i. induction Hall as [|vq rest Hvq _ IH]; intros i; [reflexivity|].
  rewrite release_loop_cons, Hvq. apply IH.
Qed.

(** X4. When no entry of the queue of the auction is due (the queue is empty,
    or each entry is released or has a release time after the block time),
    AllocateVestingPayingCoin returns no error and does nothing: no transfer,
    no write, and the auction keeps its status. *)
Theorem AllocateVestingPayingCoin_nothing_due (s : State B) (auction : AuctionI) :
  Forall (fun vq => ShouldRelease vq (BlockTime s) = false)
    (vq_by_auction (GetId auction) (VestingQueues s)) ->
  AllocateVestingPayingCoin auction s = Done (None, auction) s.
Proof.
  intros Hall. rewrite AllocateVestingPayingCoin_run.
  apply release_loop_nothing_due, Hall.
Qed.

(** A run of the releaser that returns no error, on a store in key order. *)
Lemma AllocateVestingPayingCoin_returns_nil (s s' : State B) (auction auction' : AuctionI) :
  vq_sorted (VestingQueues s) ->
  AllocateVestingPayingCoin auction s = Done (None, auction') s' ->
  GetId auction' = GetId auction /\
  BlockTime s' = BlockTime s /\
  vq_sorted (VestingQueues s') /\
  vq_by_auction (GetId auction) (VestingQueues s')
    = release_due (BlockTime s) <$> vq_by_auction (GetId auction) (VestingQueues s).
Proof.
  intros Hsorted Hrun. rewrite AllocateVestingPayingCoin_run in Hrun.
  set (queue := vq_by_auction (GetId auction) (VestingQueues s)) in *.
  destruct (pay_tranches (Bank s) (GetVestingReserveAddress auction) (GetAuctioneer auction)
              (filter (due (BlockTime s)) queue)) as [e|b'] eqn:Hpay.
  { destruct (release_loop_fails queue (Z.of_nat (length queue)) 0 auction s e Hpay)
      as (a1 & s1 & Hfail). rewrite Hfail in Hrun. discriminate. }
  destruct (release_loop_releases queue [] auction s b' Hsorted eq_refl Hpay)
    as (s1 & Hok & _ & Hsorted' & Hq' & _ & Hframe).
  change (Z.of_nat (length [] + length queue)) with (Z.of_nat (length queue)) in Hok.
  change (Z.of_nat (length (@nil VestingQueue))) with 0 in Hok.
  rewrite Hok in Hrun. injection Hrun as <- <-.
  split; [|split; [apply Hframe|split; [exact Hsorted'|exact Hq']]].
  destruct (last_due _ _); [|reflexivity].
  apply (SetStatus_addresses auction AuctionStatusFinished).
Qed.

(** X5. No tranche is paid twice.  After a run of the releaser that returned
    no error, on a store in key order, the entries of the queue that are due at
    a time [t] are the unreleased entries of the queue before the run whose
    release time lies after the block time of the run and not after [t]: an
    entry paid by the run is not due again.  In particular a second run in the
    same block does nothing. *)
Theorem AllocateVestingPayingCoin_pays_once
    (s s' : State B) (auction auction' : AuctionI) :
  vq_sorted (VestingQueues s) ->
  AllocateVestingPayingCoin auction s = Done (None, auction') s' ->
  (forall t : Time,
     filter (fun vq => ShouldRelease vq t = true)
       (vq_by_auction (GetId auction') (VestingQueues s'))
     = filter (fun vq => BlockTime s < ReleaseTime vq <= t /\ Released vq = false)
         (vq_by_auction (GetId auction) (VestingQueues s))) /\
  AllocateVestingPayingCoin auction' s' = Done (None, auction') s'.
Proof.
  intros Hsorted Hrun.
  destruct (AllocateVestingPayingCoin_returns_nil _ _ _ _ Hsorted Hrun)
    as (Hid & Hbt & _ & Hq).
  rewrite Hid, Hq.
  assert (Hdue : forall t vq,
            ShouldRelease (release_due (BlockTime s) vq) t = true <->
            BlockTime s < ReleaseTime vq <= t /\ Released vq = false).
  { intros t vq. unfold release_due.
    destruct (ShouldRelease vq (BlockTime s)) eqn:Hd.
    - pose proof (proj1 (due_iff _ _) Hd) as [Hrt Hrel].
      unfold ShouldRelease. simpl. rewrite andb_false_r. split; [discriminate|lia].
    - fold (due t vq). rewrite due_iff. split.
      + intros [Hrt Hrel]. split; [|exact Hrel]. split; [|exact Hrt].
        destruct (Z.lt_ge_cases (BlockTime s) (ReleaseTime vq)) as [?|Hle]; [assumption|].
        assert (Hc : due (BlockTime s) vq) by (apply due_iff; split; [lia|exact Hrel]).
        unfold due in Hc. congruence.
      + intros [[_ Hrt] Hrel]. auto. }
  split.
  - intros t. clear Hq. induction (vq_by_auction (GetId auction) (VestingQueues s)) as [|vq l IH];
      [reflexivity|].
    rewrite fmap_cons, !filter_cons, IH.
    destruct (decide (ShouldRelease (release_due (BlockTime s) vq) t = true)) as [Hd|Hd].
    + pose proof (proj1 (Hdue t vq) Hd) as Hd'. rewrite decide_True by exact Hd'.
      f_equal. unfold release_due.
      destruct (ShouldRelease vq (BlockTime s)) eqn:Hd0; [|reflexivity].
      apply due_iff in Hd0. lia.
    + rewrite decide_False; [reflexivity|]. intros Hc. apply Hd, Hdue, Hc.
  - rewrite AllocateVestingPayingCoin_run. apply release_loop_nothing_due.
    rewrite Hid, Hbt, Hq. apply Forall_fmap, Forall_forall. intros vq _. simpl.
    apply not_true_is_false. intros Hc. apply Hdue in Hc. lia.
Qed.

(** A scan that ends with an error: the refusal came before the last entry
    could be released, so the auction was not touched. *)
Lemma release_loop_refused rest vqsLen i auction (s s' : State B) e a' :
  i + Z.of_nat (length rest) = vqsLen ->
  release_loop vqsLen i rest auction s = Done (Some e, a') s' ->
  a' = auction /\ Auctions s' = Auctions s /\ releaser_frame s s' /\
  exists paid vq after e0,
    filter (due (BlockTime s)) rest = paid ++ vq :: after /\
    pay_tranches (Bank s) (GetVestingReserveAddress auction) (GetAuctioneer auction) paid
      = inr (Bank s') /\
    SendCoins (Bank s') (GetVestingReserveAddress auction) (GetAuctioneer auction)
      (NewCoins (PayingCoin vq)) = inl e0 /\
    e = Wrap e0 "failed to release paying coin to the auctioneer".
Proof.
  revert i s. induction rest as [|vq rest IH]; intros i s Hlen Hrun; [discriminate|].
  rewrite release_loop_cons in Hrun. rewrite filter_cons.
  destruct (decide (due (BlockTime s) vq)) as [Hdue|Hdue]; unfold due in Hdue.
  - rewrite Hdue in Hrun.
    destruct (SendCoins (Bank s) _ _ _) as [e1|b] eqn:Hsend.
    + injection Hrun as <- <- <-. unfold releaser_frame.
      split; [reflexivity|]. split; [reflexivity|]. split; [auto|].
      exists [], vq, (filter (due (BlockTime s)) rest), e1. auto.
    + cbv zeta in Hrun. destruct (Z.eqb_spec i (vqsLen - 1)) as [Hi|Hi].
      * destruct rest as [|vq2 rest]; [discriminate|].
        simpl length in Hlen. lia.
      * apply IH in Hrun; [|simpl in Hlen; lia].
        destruct Hrun as (-> & Hauc & Hframe & paid & vq' & after & e0 & Hf & Hpay & Hs & ->).
        simpl in *. split; [reflexivity|]. split; [exact Hauc|]. split; [exact Hframe|].
        exists (vq :: paid), vq', after, e0. rewrite Hf. simpl. rewrite Hsend. auto.
  - apply not_true_is_false in Hdue. rewrite Hdue in Hrun.
    apply IH in Hrun; [|simpl in Hlen; lia]. exact Hrun.
Qed.

(** X6. A run of the releaser that returns an error has not finished the
    auction: the auction it returns is the one it received and the auction
    store is as it was.  The error is the refusal of the bank, wrapped; the
    tranches that were due before the refused one have been paid, in order, and
    stay paid in the store that the run returns. *)
Theorem AllocateVestingPayingCoin_refused
    (s s' : State B) (auction auction' : AuctionI) (e : Error) :
  AllocateVestingPayingCoin auction s = Done (Some e, auction') s' ->
  auction' = auction /\ Auctions s' = Auctions s /\ releaser_frame s s' /\
  exists paid vq after e0,
    filter (fun vq => ShouldRelease vq (BlockTime s) = true)
      (vq_by_auction (GetId auction) (VestingQueues s)) = paid ++ vq :: after /\
    pay_tranches (Bank s) (GetVestingReserveAddress auction) (GetAuctioneer auction) paid
      = inr (Bank s') /\
    SendCoins (Bank s') (GetVestingReserveAddress auction) (GetAuctioneer auction)
      (NewCoins (PayingCoin vq)) = inl e0 /\
    e = Wrap e0 "failed to release paying coin to the auctioneer".
Proof.
  intros Hrun. rewrite AllocateVestingPayingCoin_run in Hrun.
  apply release_loop_refused in Hrun; [exact Hrun|lia].
Qed.

(** ** Creation *)




(** Below the wrap of the counter, the next id is the counter plus one. *)
Lemma next_id_below_wrap (s : State B) :
  0 <= LastAuctionId s -> LastAuctionId s + 1 < 2 ^ 64 ->
  (LastAuctionId s + 1) mod 2 ^ 64 = LastAuctionId s + 1.
Proof. intros. apply Z.mod_small. lia. Qed.

(** What a creation that passed the time check leaves of an allocated store. *)
Lemma created_past_check_allocated (s : State B) res r s' :
  auctions_allocated s ->
  0 <= LastAuctionId s -> LastAuctionId s + 1 < 2 ^ 64 ->
  created_past_check s res -> res = Done r s' ->
  auctions_allocated s' /\ Auctions s ⊆ Auctions s' /\
  forall a, r.1 = Some a -> Auctions s !! GetId a = None.
Proof.
  intros Hinv Hlo Hhi (r0 & s0 & -> & Hid & Hr) [= -> ->].
  rewrite next_id_below_wrap in Hid, Hr by assumption.
  destruct r as [[a|] [e|]]; try contradiction.
  - destruct Hr as [Ha Hauc].
    assert (Hfresh : Auctions s !! (LastAuctionId s + 1) = None).
    { destruct (Auctions s !! (LastAuctionId s + 1)) as [a0|] eqn:Hget; [|reflexivity].
      apply Hinv in Hget. lia. }
    split; [|split].
    + intros id a0. rewrite Hauc, Hid. intros Hget.
      apply lookup_insert_Some in Hget as [[<- <-]|[_ Hget]]; [lia|].
      apply Hinv in Hget. lia.
    + rewrite Hauc. apply insert_subseteq, Hfresh.
    + intros a0 [= <-]. rewrite Ha. exact Hfresh.
  - destruct Hr as [Hauc _]. split; [|split].
    + intros id a. rewrite Hauc, Hid. intros Hget. apply Hinv in Hget. lia.
    + rewrite Hauc. reflexivity.
    + discriminate.
Qed.

(** CancelAuction, as its three checks and what follows them. *)
Lemma CancelAuction_run (s : State B) (msg : MsgCancelAuction) :
  CancelAuction msg s =
    match Auctions s !! c_AuctionId msg with
    | None =>
        Done (Some (Wrapf ErrNotFound "auction %d not found" (ArgUint (c_AuctionId msg)))) s
    | Some auction =>
        if negb (String.eqb (GetAuctioneer auction) (c_Auctioneer msg)) then
          Done (Some (Wrap ErrUnauthorized "only the autioneer can cancel the auction")) s
        else if negb (bool_decide (GetStatus auction = AuctionStatusStandBy)) then
          Done (Some (Wrap ErrInvalidAuctionStatus
                        "only the stand by auction can be cancelled")) s
        else cancel_release auction s
    end.
Proof.
  unfold CancelAuction, bind, GetAuction, gets, ret.
  destruct (Auctions s !! c_AuctionId msg) as [a|]; [|reflexivity].
  destruct (negb (String.eqb _ _)); [reflexivity|].
  destruct (negb (bool_decide _)); [reflexivity|].
  unfold cancel_release, bankSpendableCoins, bankSendCoins, gets, SetAuction, EmitEvent, modify.
  destruct (SendCoins _ _ _ _); [reflexivity|]. simpl. destruct a; reflexivity.
Qed.

Lemma cancel_release_cancelled (a : AuctionI) (s s' : State B) :
  cancel_release a s = Done None s' ->
  exists a', Auctions s' = <[GetId a := a']> (Auctions s) /\
             GetId a' = GetId a /\ GetAuctioneer a' = GetAuctioneer a /\
             GetStatus a' = AuctionStatusCancelled /\
             LastAuctionId s' = LastAuctionId s.
Proof.
  unfold cancel_release. destruct (SendCoins _ _ _ _); [discriminate|].
  intros [= <-]. eexists. split; [reflexivity|]. destruct a; auto.
Qed.

(** The scan of the releaser writes the auction store at most to store the
    auction as Finished, and leaves the id counter alone. *)
Lemma release_loop_auctions rest vqsLen i auction (s s' : State B) r :
  release_loop vqsLen i rest auction s = Done r s' ->
  LastAuctionId s' = LastAuctionId s /\
  (Auctions s' = Auctions s \/
   Auctions s' = <[GetId auction := SetStatus auction AuctionStatusFinished]> (Auctions s)).
Proof.
  revert i auction s. induction rest as [|vq rest IH]; intros i auction s Hrun.
  - injection Hrun as <- <-. auto.
  - rewrite release_loop_cons in Hrun.
    destruct (ShouldRelease vq (BlockTime s)); [|apply IH in Hrun; exact Hrun].
    destruct (SendCoins _ _ _ _) as [e|b]; [injection Hrun as <- <-; auto|].
    cbv zeta in Hrun. destruct (i =? vqsLen - 1).
    + apply IH in Hrun as [Hctr Hauc]. split; [exact Hctr|]. right.
      replace (GetId (SetStatus auction AuctionStatusFinished)) with (GetId auction) in Hauc
        by (destruct auction; reflexivity).
      replace (SetStatus (SetStatus auction AuctionStatusFinished) AuctionStatusFinished)
        with (SetStatus auction AuctionStatusFinished) in Hauc
        by (destruct auction; reflexivity).
      destruct Hauc as [Hauc|Hauc]; rewrite Hauc; simpl; [reflexivity|].
      apply insert_insert_eq.
    + apply IH in Hrun as [Hctr Hauc]. split; [exact Hctr|exact Hauc].
Qed.

(** X8. The methods of auction.go that write the auction store keep it
    allocated: every auction sits under its own id, and no id is above the
    counter.  Below the wrap of the counter a creation therefore stores its
    auction under an id that held nothing, and every auction stored before is
    still stored, unchanged.  The cancellation, the two operations on allowed
    bidders, the round extension and the vesting releaser, which write an
    auction back under its id, keep the store allocated as well. *)
Theorem auctions_allocated_kept (s : State B) :
  auctions_allocated s ->
  (forall fmsg r s',
     0 <= LastAuctionId s -> LastAuctionId s + 1 < 2 ^ 64 ->
     CreateFixedPriceAuction SellingReserveAddress PayingReserveAddress
       VestingReserveAddress fmsg s = Done r s' ->
     auctions_allocated s' /\ Auctions s ⊆ Auctions s' /\
     forall a, r.1 = Some a -> Auctions s !! GetId a = None) /\
  (forall bmsg r s',
     0 <= LastAuctionId s -> LastAuctionId s + 1 < 2 ^ 64 ->
     CreateBatchAuction SellingReserveAddress PayingReserveAddress
       VestingReserveAddress bmsg s = Done r s' ->
     auctions_allocated s' /\ Auctions s ⊆ Auctions s' /\
     forall a, r.1 = Some a -> Auctions s !! GetId a = None) /\
  (forall msg r s', CancelAuction msg s = Done r s' -> auctions_allocated s') /\
  (forall auctionId bidders r s',
     AddAllowedBidders auctionId bidders s = Done r s' -> auctions_allocated s') /\
  (forall auctionId bidder maxBidAmount r s',
     UpdateAllowedBidder auctionId bidder maxBidAmount s = Done r s' ->
     auctions_allocated s') /\
  (forall ba ba' s',
     is_Some (Auctions s !! Id (BaseAuction_ ba)) ->
     ExtendRound ba s = Done ba' s' -> auctions_allocated s') /\
  (forall auction r s',
     is_Some (Auctions s !! GetId auction) ->
     AllocateVestingPayingCoin auction s = Done r s' -> auctions_allocated s').
Proof.
  intros Hinv.
  assert (Hput : forall (a a' : AuctionI) id (s' : State B),
            Auctions s !! id = Some a -> GetId a' = GetId a ->
            Auctions s' = <[GetId a := a']> (Auctions s) ->
            LastAuctionId s' = LastAuctionId s -> auctions_allocated s').
  { intros a a' id s' Hget Hid Hauc Hctr id0 a0. rewrite Hauc, Hctr.
    destruct (Hinv _ _ Hget) as [Hkey Hle]. intros Hget0.
    apply lookup_insert_Some in Hget0 as [[<- <-]|[_ Hget0]]; [|apply Hinv, Hget0].
    split; [exact Hid|lia]. }
  split; [|split; [|split; [|split; [|split; [|split]]]]].
  - intros fmsg r s' Hlo Hhi Hrun.
    destruct (Z.lt_ge_cases (fp_EndTime fmsg) (BlockTime s)) as [Hlt|Hge].
    + rewrite CreateFixedPriceAuction_before_block_time in Hrun by exact Hlt.
      injection Hrun as <- <-. split; [exact Hinv|]. split; [reflexivity|discriminate].
    + eapply created_past_check_allocated; try eassumption.
      apply CreateFixedPriceAuction_past_check. lia.
  - intros bmsg r s' Hlo Hhi Hrun.
    destruct (Z.lt_ge_cases (b_EndTime bmsg) (BlockTime s)) as [Hlt|Hge].
    + rewrite CreateBatchAuction_before_block_time in Hrun by exact Hlt.
      injection Hrun as <- <-. split; [exact Hinv|]. split; [reflexivity|discriminate].
    + eapply created_past_check_allocated; try eassumption.
      apply CreateBatchAuction_past_check. lia.
  - intros msg r s'. rewrite CancelAuction_run.
    destruct (Auctions s !! c_AuctionId msg) as [a|] eqn:Hget; [|intros [= <- <-]; exact Hinv].
    destruct (negb (String.eqb _ _)); [intros [= <- <-]; exact Hinv|].
    destruct (negb (bool_decide _)); [intros [= <- <-]; exact Hinv|].
    destruct r as [e|].
    + unfold cancel_release. destruct (SendCoins _ _ _ _); [|discriminate].
      intros [= <- <-]. exact Hinv.
    + intros Hrel. apply cancel_release_cancelled in Hrel as (a' & Hauc & Hid & _ & _ & Hctr).
      eapply Hput; eassumption.
  - intros auctionId bidders r s'. unfold AddAllowedBidders, bind, GetAuction, gets, ret.
    destruct (Auctions s !! auctionId) as [a|] eqn:Hget; [|intros [= <- <-]; exact Hinv].
    destruct (length bidders =? 0)%nat; [intros [= <- <-]; exact Hinv|].
    destruct (ValidateAllowedBidders _ _); [intros [= <- <-]; exact Hinv|].
    intros [= <- <-].
    apply (Hput a (SetAllowedBidders a (GetAllowedBidders a ++ bidders)) auctionId);
      [exact Hget|destruct a; reflexivity|destruct a; reflexivity|reflexivity].
  - intros auctionId bidder maxBidAmount r s'.
    unfold UpdateAllowedBidder, bind, GetAuction, gets, ret.
    destruct (Auctions s !! auctionId) as [a|] eqn:Hget; [|intros [= <- <-]; exact Hinv].
    destruct (IsNil maxBidAmount); [intros [= <- <-]; exact Hinv|].
    destruct (negb (IsPositive maxBidAmount)); [intros [= <- <-]; exact Hinv|].
    destruct (GetAllowedBiddersMap a !! bidder); [|intros [= <- <-]; exact Hinv].
    intros [= <- <-].
    apply (Hput a (SetMaxBidAmount a bidder maxBidAmount) auctionId);
      [exact Hget|destruct a; reflexivity|destruct a; reflexivity|reflexivity].
  - intros ba ba' s' [a Hget] [= <- <-].
    apply (Hput a (BatchAuctionI
                     (SetEndTimes ba (EndTimes (BaseAuction_ ba)
                        ++ [AddDate_days (BlockTime s) (ExtendedPeriod (StoredParams s))])))
             (Id (BaseAuction_ ba)));
      [exact Hget| |simpl|reflexivity].
    + destruct (Hinv _ _ Hget) as [-> _]. reflexivity.
    + destruct (Hinv _ _ Hget) as [-> _]. reflexivity.
  - intros auction r s' [a Hget] Hrun. rewrite AllocateVestingPayingCoin_run in Hrun.
    apply release_loop_auctions in Hrun as (Hctr & [Hauc|Hauc]).
    + intros id a0. rewrite Hauc, Hctr. apply Hinv.
    + apply (Hput a (SetStatus auction AuctionStatusFinished) (GetId auction));
        [exact Hget| | |exact Hctr].
      * destruct (Hinv _ _ Hget) as [-> _]. destruct auction; reflexivity.
      * destruct (Hinv _ _ Hget) as [-> _]. exact Hauc.
Qed.

(** ** More on cancellation *)




(** ** More on allowed bidders *)

(** X12. AddAllowedBidders and UpdateAllowedBidder look the auction up before
    any other check: for an unknown id both return NotFound, whatever the list
    or the cap, and leave the store as it was.  UpdateAllowedBidder with a
    positive cap for a bidder that the list does not have returns NotFound for
    the bidder.  Neither method panics, and an update that returns an error
    leaves the store as it was. *)
Theorem allowed_bidders_refusals (s : State B) (auctionId : Z) :
  (Auctions s !! auctionId = None ->
     (forall bidders,
        AddAllowedBidders auctionId bidders s
          = Done (Some (Wrapf ErrNotFound "auction %d is not found" (ArgUint auctionId))) s) /\
     (forall bidder maxBidAmount,
        UpdateAllowedBidder auctionId bidder maxBidAmount s
          = Done (Some (Wrapf ErrNotFound "auction %d is not found" (ArgUint auctionId))) s)) /\
  (forall a bidder v,
     Auctions s !! auctionId = Some a -> 0 < v ->
     (forall ab, ab ∈ GetAllowedBidders a -> Bidder ab <> bidder) ->
     UpdateAllowedBidder auctionId bidder (Some v) s
       = Done (Some (Wrapf ErrNotFound "bidder %s is not found" (ArgString bidder))) s) /\
  (forall bidders, exists r s', AddAllowedBidders auctionId bidders s = Done r s') /\
  (forall bidder maxBidAmount,
     exists r s', UpdateAllowedBidder auctionId bidder maxBidAmount s = Done r s') /\
  (forall bidder maxBidAmount e s',
     UpdateAllowedBidder auctionId bidder maxBidAmount s = Done (Some e) s' -> s' = s).
Proof.
  unfold AddAllowedBidders, UpdateAllowedBidder, bind, GetAuction, gets, ret.
  split; [|split; [|split; [|split]]].
  - intros ->. split; reflexivity.
  - intros a bidder v -> Hv Hnot. simpl.
    destruct (Z.ltb_spec 0 v); [|lia]. simpl.
    destruct (GetAllowedBiddersMap a !! bidder) as [cap|] eqn:Hcap; [|reflexivity].
    exfalso. assert (Hsome : is_Some (GetAllowedBiddersMap a !! bidder)) by eauto.
    apply GetAllowedBiddersMap_is_Some in Hsome as (ab & Hin & Hb).
    exact (Hnot ab Hin Hb).
  - intros bidders. destruct (Auctions s !! auctionId) as [a|]; [|eauto].
    destruct (length bidders =? 0)%nat; [eauto|].
    destruct (ValidateAllowedBidders _ _); eauto.
  - intros bidder maxBidAmount. destruct (Auctions s !! auctionId) as [a|]; [|eauto].
    destruct (IsNil maxBidAmount); [eauto|].
    destruct (negb (IsPositive maxBidAmount)); [eauto|].
    destruct (GetAllowedBiddersMap a !! bidder); eauto.
  - intros bidder maxBidAmount e s'.
    destruct (Auctions s !! auctionId) as [a|]; [|congruence].
    destruct (IsNil maxBidAmount); [congruence|].
    destruct (negb (IsPositive maxBidAmount)); [congruence|].
    destruct (GetAllowedBiddersMap a !! bidder); [discriminate|congruence].
Qed.

(** X13. What AddAllowedBidders and UpdateAllowedBidder accept, for an
    auction that exists.  An addition succeeds exactly when the list is not
    empty and passes the validation against the selling amount; an update
    succeeds exactly when the cap is set and positive and the list has an entry
    for the bidder.  Neither looks at the status of the auction or asks who
    calls: an auction that is cancelled or finished takes both. *)
Theorem allowed_bidders_acceptance (s : State B) (auctionId : Z) (a : AuctionI) :
  Auctions s !! auctionId = Some a ->
  (forall bidders,
     (exists s', AddAllowedBidders auctionId bidders s = Done None s') <->
     bidders <> [] /\
     ValidateAllowedBidders bidders (Amount (GetSellingCoin a)) = None) /\
  (forall bidder maxBidAmount,
     (exists s', UpdateAllowedBidder auctionId bidder maxBidAmount s = Done None s') <->
     (exists v, maxBidAmount = Some v /\ 0 < v) /\
     (exists ab, ab ∈ GetAllowedBidders a /\ Bidder ab = bidder)).
Proof.
  without_unused_methods.
  intros Hget. unfold AddAllowedBidders, UpdateAllowedBidder, bind, GetAuction, gets, ret.
  rewrite Hget. split.
  - intros bidders. destruct bidders as [|b l]; simpl length; simpl Nat.eqb.
    + split; [intros [s' [=]]|intros [Hne _]; contradiction].
    + destruct (ValidateAllowedBidders _ _) as [e|].
      * split; [intros [s' [=]]|intros [_ [=]]].
      * split; [intros _; split; [discriminate|reflexivity]|intros _; eauto].
  - intros bidder maxBidAmount. rewrite <- GetAllowedBiddersMap_is_Some.
    destruct maxBidAmount as [v|]; simpl.
    + destruct (Z.ltb_spec 0 v) as [Hv|Hv]; simpl.
      * destruct (GetAllowedBiddersMap a !! bidder) as [cap|].
        -- split; [intros _; split; eauto|intros _; eauto].
        -- split; [intros [s' [=]]|intros [_ [x [=]]]].
      * split; [intros [s' [=]]|intros [(v' & [= <-] & Hpos) _]; lia].
    + split; [intros [s' [=]]|intros [(v' & [=] & _) _]].
Qed.

(** A successful AddAllowedBidders. *)
Lemma AddAllowedBidders_stores (s s' : State B) (auctionId : Z) (a : AuctionI) bidders :
  Auctions s !! auctionId = Some a ->
  AddAllowedBidders auctionId bidders s = Done None s' ->
  bidders <> [] /\
  s' = with_Auctions
         (<[GetId a := SetAllowedBidders a (GetAllowedBidders a ++ bidders)]> (Auctions s)) s.
Proof.
  intros Hget. unfold AddAllowedBidders, bind, GetAuction, gets, ret. rewrite Hget.
  destruct bidders as [|b l]; [discriminate|]. simpl length. simpl Nat.eqb.
  destruct (ValidateAllowedBidders _ _); [discriminate|].
  intros [= <-]. split; [discriminate|]. destruct a; reflexivity.
Qed.

(** X14. Two successive additions to an auction stored under its own id
    amount to one addition of both lists: when both succeed, neither list is
    empty and the auction is stored with its previous list followed by the
    first and then the second list; nothing else of the store changes. *)
Theorem AddAllowedBidders_twice
    (s s1 s2 : State B) (auctionId : Z) (a : AuctionI) (bidders1 bidders2 : list AllowedBidder) :
  Auctions s !! auctionId = Some a -> GetId a = auctionId ->
  AddAllowedBidders auctionId bidders1 s = Done None s1 ->
  AddAllowedBidders auctionId bidders2 s1 = Done None s2 ->
  exists a2,
    s2 = with_Auctions (<[auctionId := a2]> (Auctions s)) s /\
    a2 = SetAllowedBidders a (GetAllowedBidders a ++ bidders1 ++ bidders2) /\
    GetAllowedBidders a2 = GetAllowedBidders a ++ bidders1 ++ bidders2 /\
    bidders1 <> [] /\ bidders2 <> [].
Proof.
  intros Hget Hid Hrun1 Hrun2.
  destruct (AddAllowedBidders_stores _ _ _ _ _ Hget Hrun1) as [Hne1 ->].
  rewrite Hid in Hrun2.
  assert (Hget1 : Auctions (with_Auctions
                    (<[auctionId := SetAllowedBidders a (GetAllowedBidders a ++ bidders1)]>
                       (Auctions s)) s) !! auctionId
                  = Some (SetAllowedBidders a (GetAllowedBidders a ++ bidders1)))
    by apply lookup_insert_eq.
  destruct (AddAllowedBidders_stores _ _ _ _ _ Hget1 Hrun2) as [Hne2 ->].
  exists (SetAllowedBidders a (GetAllowedBidders a ++ bidders1 ++ bidders2)).
  split; [|split; [reflexivity|split; [destruct a; reflexivity|auto]]].
  replace (GetId (SetAllowedBidders a (GetAllowedBidders a ++ bidders1))) with auctionId
    by (destruct a; exact (eq_sym Hid)).
  unfold with_Auctions. simpl. rewrite insert_insert_eq.
  do 2 f_equal.
  destruct a; unfold SetAllowedBidders, GetAllowedBidders, with_base, base,
    BaseSetAllowedBidders; cbn; rewrite <- app_assoc; reflexivity.
Qed.

(** ** More on extended rounds *)

(** X15. ExtendRound keeps the end times in chronological order.  When the
    end times of the batch auction are in order and none is after the block
    time, and the extended period is not negative, the end times after the
    extension are in order, the appended one is the last and is not before the
    block time; with a positive extended period it is after every end time
    that was there. *)
Theorem ExtendRound_keeps_end_times_in_order (s : State B) (ba : BatchAuction) :
  StronglySorted Z.le (EndTimes (BaseAuction_ ba)) ->
  Forall (fun t => t <= BlockTime s) (EndTimes (BaseAuction_ ba)) ->
  0 <= ExtendedPeriod (StoredParams s) ->
  exists ba' s',
    ExtendRound ba s = Done ba' s' /\
    StronglySorted Z.le (EndTimes (BaseAuction_ ba')) /\
    last (EndTimes (BaseAuction_ ba'))
      = Some (AddDate_days (BlockTime s) (ExtendedPeriod (StoredParams s))) /\
    BlockTime s <= AddDate_days (BlockTime s) (ExtendedPeriod (StoredParams s)) /\
    (0 < ExtendedPeriod (StoredParams s) ->
     Forall (fun t => t < AddDate_days (BlockTime s) (ExtendedPeriod (StoredParams s)))
       (EndTimes (BaseAuction_ ba))).
Proof.
  intros Hsorted Hpast Hperiod.
  assert (Hnew : BlockTime s <= AddDate_days (BlockTime s) (ExtendedPeriod (StoredParams s))).
  { unfold AddDate_days, nanosPerDay. nia. }
  exists (SetEndTimes ba (EndTimes (BaseAuction_ ba)
            ++ [AddDate_days (BlockTime s) (ExtendedPeriod (StoredParams s))])).
  exists (with_Auctions
            (<[Id (BaseAuction_ ba) :=
                 BatchAuctionI
                   (SetEndTimes ba (EndTimes (BaseAuction_ ba)
                      ++ [AddDate_days (BlockTime s) (ExtendedPeriod (StoredParams s))]))]>
               (Auctions s)) s).
  split; [reflexivity|]. simpl.
  split; [|split; [apply last_snoc|split; [exact Hnew|]]].
  - apply StronglySorted_app. split; [|split; [exact Hsorted|repeat constructor]].
    intros t1 t2 H1 H2. apply list_elem_of_singleton in H2 as ->.
    rewrite Forall_forall in Hpast. specialize (Hpast t1 H1). lia.
  - intros Hpos. eapply Forall_impl; [exact Hpast|]. intros t Ht. simpl in Ht.
    unfold AddDate_days, nanosPerDay. nia.
Qed.

(** ** Decimals *)

Lemma precisionReuse_pos : 0 < precisionReuse.
Proof. unfold precisionReuse. apply Z.pow_pos_nonneg; lia. Qed.

(** Rounding a decimal that is not negative goes to one of its two
    neighbours. *)
Lemma chopPrecisionAndRound_bounds d :
  0 <= d ->
  d / precisionReuse <= chopPrecisionAndRound d <= d / precisionReuse + 1.
Proof.
  intros Hd. pose proof precisionReuse_pos as HP. unfold chopPrecisionAndRound.
  destruct (Z.ltb_spec d 0) as [?|_]; [lia|].
  rewrite Z.quot_div_nonneg by lia.
  destruct (_ =? 0); [lia|]. destruct (_ ?= _); [destruct (Z.even _)| |]; lia.
Qed.

Lemma chopPrecisionAndRound_exact q :
  0 <= q -> chopPrecisionAndRound (q * precisionReuse) = q.
Proof.
  intros Hq. pose proof precisionReuse_pos as HP. unfold chopPrecisionAndRound.
  destruct (Z.ltb_spec (q * precisionReuse) 0) as [?|_]; [nia|].
  rewrite Z.quot_div_nonneg, Z.rem_mod_nonneg by nia.
  rewrite Z.div_mul, Z.mod_mul by lia. reflexivity.
Qed.

(** The quotient of two whole decimals is the quotient of the numbers, scaled,
    up to one unit of the last digit. *)
Lemma DecQuo_NewDec curr last :
  0 <= curr -> 0 < last ->
  exists q, DecQuo (NewDec curr) (NewDec last) = Some q /\
            curr * precisionReuse / last <= q <= curr * precisionReuse / last + 1 /\
            (curr = 0 -> q = 0).
Proof.
  intros Hcurr Hlast. pose proof precisionReuse_pos as HP.
  unfold DecQuo, NewDec. destruct (Z.eqb_spec (last * precisionReuse) 0) as [?|_]; [nia|].
  eexists. split; [reflexivity|].
  rewrite Z.quot_div_nonneg by nia.
  rewrite Z.div_mul_cancel_r by lia.
  split.
  - pose proof (chopPrecisionAndRound_bounds (curr * precisionReuse * precisionReuse / last))
      as Hb.
    rewrite Z.div_div, Z.div_mul_cancel_r in Hb by lia.
    apply Hb. apply Z.div_pos; nia.
  - intros ->. reflexivity.
Qed.

(** ** The extended-round controller *)

(** FinishBatchAuction on a batch auction that is not in its last round. *)
Lemma FinishBatchAuction_before_last_round
    (ba ba1 : BatchAuction) (mInfo : MatchingInfo) (s s1 : State B) :
  in_last_round ba = false ->
  CalculateBatchAllocation (BatchAuctionI ba) s = Done (mInfo, BatchAuctionI ba1) s1 ->
  FinishBatchAuction AccAddressFromBech32 CalculateBatchAllocation
    ApplyVestingSchedules (BatchAuctionI ba) s
  = let lastMatchedLen := default 0 (MatchedBidsLen s !! Id (BaseAuction_ ba)) in
    if lastMatchedLen =? 0 then extension ba1 s1
    else match DecQuo (NewDec (MatchedLen mInfo)) (NewDec lastMatchedLen) with
         | None => Panicked (ErrRuntime "division by zero")
         | Some quo =>
             if DecGTE (DecSub OneDec quo) (ExtendedRoundRate ba1) then extension ba1 s1
             else settlement AccAddressFromBech32 ApplyVestingSchedules
                    (BatchAuctionI ba1) mInfo s1
         end.
Proof.
  intros Hguard Hcalc. unfold in_last_round in Hguard.
  unfold FinishBatchAuction.
  rewrite (bind_Done _ _ s ba s eq_refl).
  change (GetEndTimes (BatchAuctionI ba)) with (EndTimes (BaseAuction_ ba)).
  rewrite Hguard.
  rewrite (bind_Done _ _ s (BatchAuctionI ba) s eq_refl).
  erewrite bind_Done by reflexivity.
  change (GetId (BatchAuctionI ba)) with (Id (BaseAuction_ ba)). cbv zeta.
  destruct (_ =? 0).
  - erewrite bind_Done by exact Hcalc. reflexivity.
  - erewrite bind_Done by exact Hcalc.
    cbv beta iota.
    erewrite (bind_Done (as_batch _)) by reflexivity.
    destruct (DecQuo _ _); [|reflexivity].
    destruct (DecGTE _ _); reflexivity.
Qed.

(** X16. On a batch auction that is not in its last round and has no matched
    length on record, FinishBatchAuction clears and extends the round: it
    returns the cleared auction with one more end time, the block time plus
    the extended period, stored under its id, with the status it had; it makes
    no transfer and settles nothing. *)
Theorem FinishBatchAuction_first_pass_extends
    (ba ba1 : BatchAuction) (mInfo : MatchingInfo) (s s1 : State B) :
  in_last_round ba = false ->
  default 0 (MatchedBidsLen s !! Id (BaseAuction_ ba)) = 0 ->
  CalculateBatchAllocation (BatchAuctionI ba) s = Done (mInfo, BatchAuctionI ba1) s1 ->
  exists ba2,
    FinishBatchAuction AccAddressFromBech32 CalculateBatchAllocation
      ApplyVestingSchedules (BatchAuctionI ba) s
      = Done (BatchAuctionI ba2)
          (with_Auctions (<[Id (BaseAuction_ ba1) := BatchAuctionI ba2]> (Auctions s1)) s1) /\
    ba2 = SetEndTimes ba1
            (EndTimes (BaseAuction_ ba1)
               ++ [AddDate_days (BlockTime s1) (ExtendedPeriod (StoredParams s1))]) /\
    length (EndTimes (BaseAuction_ ba2)) = S (length (EndTimes (BaseAuction_ ba1))) /\
    Status (BaseAuction_ ba2) = Status (BaseAuction_ ba1).
Proof.
  intros Hguard Hlast Hcalc. eexists. split; [|split; [reflexivity|]].
  - rewrite (FinishBatchAuction_before_last_round _ _ _ _ _ Hguard Hcalc), Hlast.
    reflexivity.
  - simpl. rewrite length_app. simpl. split; [lia|reflexivity].
Qed.

(** X17. The rule of the extended rounds.  On a batch auction that is not in
    its last round, with a matched length [last > 0] on record and a clearing
    that matches [curr >= 0] bids, FinishBatchAuction compares
    [1 - curr / last], computed in decimals of 18 digits, with the extended
    round rate: it extends the round when [curr / last <= 1 - rate - 10^-18]
    and settles with the clearing when [curr / last >= 1 - rate + 10^-18].  In
    particular it extends when nothing is matched any more and the rate is at
    most one, and it settles when the matched length has not shrunk and the
    rate is positive.  It does one or the other: the division is not by zero. *)
Theorem FinishBatchAuction_extension_rule
    (ba ba1 : BatchAuction) (mInfo : MatchingInfo) (s s1 : State B) :
  let lastMatchedLen := default 0 (MatchedBidsLen s !! Id (BaseAuction_ ba)) in
  let rate := ExtendedRoundRate ba1 in
  let run := FinishBatchAuction AccAddressFromBech32 CalculateBatchAllocation
               ApplyVestingSchedules (BatchAuctionI ba) s in
  in_last_round ba = false ->
  0 < lastMatchedLen -> 0 <= MatchedLen mInfo ->
  CalculateBatchAllocation (BatchAuctionI ba) s = Done (mInfo, BatchAuctionI ba1) s1 ->
  (MatchedLen mInfo * precisionReuse <= (precisionReuse - rate - 1) * lastMatchedLen ->
   run = extension ba1 s1) /\
  ((precisionReuse - rate + 1) * lastMatchedLen <= MatchedLen mInfo * precisionReuse ->
   run = settlement AccAddressFromBech32 ApplyVestingSchedules (BatchAuctionI ba1) mInfo s1) /\
  (MatchedLen mInfo = 0 -> rate <= OneDec -> run = extension ba1 s1) /\
  (lastMatchedLen <= MatchedLen mInfo -> 0 < rate ->
   run = settlement AccAddressFromBech32 ApplyVestingSchedules (BatchAuctionI ba1) mInfo s1) /\
  (run = extension ba1 s1 \/
   run = settlement AccAddressFromBech32 ApplyVestingSchedules (BatchAuctionI ba1) mInfo s1).
Proof.
  intros lastMatchedLen rate run Hguard Hlast Hcurr Hcalc.
  pose proof precisionReuse_pos as HP.
  assert (Hrun := FinishBatchAuction_before_last_round _ _ _ _ _ Hguard Hcalc).
  fold run in Hrun. cbv zeta in Hrun. fold lastMatchedLen in Hrun.
  destruct (Z.eqb_spec lastMatchedLen 0) as [?|_]; [lia|].
  destruct (DecQuo_NewDec (MatchedLen mInfo) lastMatchedLen Hcurr Hlast)
    as (q & Hq & [Hlo Hhi] & Hzero).
  rewrite Hq in Hrun. fold rate in Hrun. unfold DecGTE, DecSub, OneDec in Hrun.
  assert (Hsettle : (precisionReuse - rate + 1) * lastMatchedLen
                      <= MatchedLen mInfo * precisionReuse ->
                    run = settlement AccAddressFromBech32 ApplyVestingSchedules
                            (BatchAuctionI ba1) mInfo s1).
  { intros Hle. rewrite Hrun.
    destruct (Z.leb_spec rate (precisionReuse - q)) as [Hc|_]; [|reflexivity].
    exfalso.
    assert (precisionReuse - rate + 1 <= MatchedLen mInfo * precisionReuse / lastMatchedLen)
      by (apply Z.div_le_lower_bound; lia).
    lia. }
  split; [|split; [exact Hsettle|split; [|split]]].
  - intros Hle. rewrite Hrun.
    destruct (Z.leb_spec rate (precisionReuse - q)) as [_|Hc]; [reflexivity|].
    exfalso.
    assert (MatchedLen mInfo * precisionReuse / lastMatchedLen <= precisionReuse - rate - 1)
      by (apply Z.div_le_upper_bound; lia).
    lia.
  - intros Hz Hrate. rewrite Hrun, (Hzero Hz).
    unfold OneDec in Hrate.
    destruct (Z.leb_spec rate (precisionReuse - 0)) as [_|Hc]; [reflexivity|lia].
  - intros Hge Hrate. apply Hsettle. nia.
  - rewrite Hrun. destruct (rate <=? precisionReuse - q); auto.
Qed.

(** X18. The test of FinishBatchAuction for the last round, in 32-bit
    unsigned arithmetic: for a batch auction with between 1 and 2^32 - 1 end
    times it holds exactly when the end times number [max_extended_round + 1],
    as long as [max_extended_round] is below 2^32 - 1; at 2^32 - 1 the sum
    wraps to zero and the test fails for every such auction. *)
Theorem in_last_round_spec (ba : BatchAuction) :
  0 <= MaxExtendedRound ba < 2 ^ 32 ->
  0 < Z.of_nat (length (EndTimes (BaseAuction_ ba))) < 2 ^ 32 ->
  (MaxExtendedRound ba < 2 ^ 32 - 1 ->
   (in_last_round ba = true <->
    Z.of_nat (length (EndTimes (BaseAuction_ ba))) = MaxExtendedRound ba + 1)) /\
  (MaxExtendedRound ba = 2 ^ 32 - 1 -> in_last_round ba = false).
Proof.
  intros Hmax Hlen. unfold in_last_round.
  rewrite (Z.mod_small (Z.of_nat _)) by lia. split.
  - intros Hlt. rewrite Z.mod_small by lia. rewrite Z.eqb_eq. lia.
  - intros ->. replace (2 ^ 32 - 1 + 1) with (1 * 2 ^ 32) by lia.
    rewrite Z.mod_mul by lia. apply Z.eqb_neq. lia.
Qed.

(** Extensions add end times and change nothing else that the test reads. *)
Lemma extended_end_times (n : nat) (ba ba' : BatchAuction) :
  extended B n ba ba' ->
  MaxExtendedRound ba' = MaxExtendedRound ba /\
  length (EndTimes (BaseAuction_ ba')) = (length (EndTimes (BaseAuction_ ba)) + n)%nat.
Proof.
  induction 1 as [ba|n ba ba1 ba2 s s' _ [IHmax IHlen] Hrun].
  - split; [reflexivity|lia].
  - injection Hrun as <- _. simpl. rewrite length_app, IHlen. simpl. split; [exact IHmax|lia].
Qed.

(** X19. A batch auction that starts with one end time, as a creation leaves
    it, is in its last round after exactly [max_extended_round] calls of
    ExtendRound, in whatever stores and at whatever block times they are made:
    each call adds one end time and leaves [max_extended_round] as it was. *)
Theorem rounds_until_last_round (n : nat) (ba ba' : BatchAuction) :
  extended B n ba ba' ->
  length (EndTimes (BaseAuction_ ba)) = 1%nat ->
  0 <= MaxExtendedRound ba < 2 ^ 32 - 1 ->
  Z.of_nat n < 2 ^ 32 - 1 ->
  length (EndTimes (BaseAuction_ ba')) = S n /\
  MaxExtendedRound ba' = MaxExtendedRound ba /\
  (in_last_round ba' = true <-> Z.of_nat n = MaxExtendedRound ba).
Proof.
  intros Hext Hone Hmax Hn.
  destruct (extended_end_times n ba ba' Hext) as [Hmax' Hlen]. rewrite Hone in Hlen.
  split; [exact Hlen|]. split; [exact Hmax'|].
  unfold in_last_round. rewrite Hmax', Hlen.
  rewrite !Z.mod_small by lia. rewrite Z.eqb_eq. lia.
Qed.

(** ** Finishing a fixed-price auction *)

(** The two transfers of selling coins in a settlement change nothing but the
    bank. *)
Lemma AllocateSellingCoin_frame auction mInfo (s : State B) r s' :
  AllocateSellingCoin AccAddressFromBech32 auction mInfo s = Done r s' ->
  exists b, s' = with_Bank b s /\ (r <> None -> b = Bank s).
Proof.
  unfold AllocateSellingCoin. destruct (allocate_entries _ _ _ _ _ _) as [inputs outputs].
  unfold bind, bankInputOutputCoins, ret.
  destruct (InputOutputCoins _ _ _) as [e|b]; intros [= <- <-].
  - exists (Bank s). rewrite with_Bank_same. auto.
  - exists b. split; [reflexivity|]. intros H. contradiction.
Qed.

Lemma ReleaseRemainingSellingCoin_run auction (s : State B) :
  ReleaseRemainingSellingCoin auction s =
    match SendCoins (Bank s) (GetSellingReserveAddress auction) (GetAuctioneer auction)
            (NewCoins (NewCoin (Denom (GetSellingCoin auction))
                         (AmountOf (SpendableCoins (Bank s) (GetSellingReserveAddress auction))
                            (Denom (GetSellingCoin auction))))) with
    | inl e => Done (Some e) s
    | inr b => Done None (with_Bank b s)
    end.
Proof.
  unfold ReleaseRemainingSellingCoin, bind, bankSpendableCoins, bankSendCoins, gets, ret.
  destruct (SendCoins _ _ _ _); reflexivity.
Qed.

(** X20. When FinishFixedPriceAuction returns, the bank has accepted the
    transfer of the allocations, then the bank has sent the auctioneer the
    whole balance of the selling denomination that the selling reserve had
    after that transfer, and the vesting schedules were applied to a store
    that differs from the store of the clearing in the bank only; the auction
    returned is the one the vesting application returned. *)
Theorem FinishFixedPriceAuction_returns
    (s s' : State B) (auction auction' : AuctionI) :
  FinishFixedPriceAuction AccAddressFromBech32 CalculateFixedPriceAllocation
    ApplyVestingSchedules auction s = Done auction' s' ->
  exists mInfo a0 s0 b1 b2,
    CalculateFixedPriceAllocation auction s = Done (mInfo, a0) s0 /\
    AllocateSellingCoin AccAddressFromBech32 a0 mInfo s0 = Done None (with_Bank b1 s0) /\
    SendCoins b1 (GetSellingReserveAddress a0) (GetAuctioneer a0)
      (NewCoins (NewCoin (Denom (GetSellingCoin a0))
                   (AmountOf (SpendableCoins b1 (GetSellingReserveAddress a0))
                      (Denom (GetSellingCoin a0))))) = inr b2 /\
    ApplyVestingSchedules a0 (with_Bank b2 s0) = Done (None, auction') s'.
Proof.
  unfold FinishFixedPriceAuction, bind.
  destruct (CalculateFixedPriceAllocation auction s) as [[mInfo a0] s0|]; [|discriminate].
  destruct (AllocateSellingCoin _ a0 mInfo s0) as [r1 s1|] eqn:Halloc; [|discriminate].
  destruct (AllocateSellingCoin_frame _ _ _ _ _ Halloc) as (b1 & -> & _).
  destruct r1 as [e1|]; [discriminate|].
  rewrite ReleaseRemainingSellingCoin_run. simpl Bank.
  destruct (SendCoins b1 _ _ _) as [e2|b2] eqn:Hsend; [discriminate|].
  destruct (ApplyVestingSchedules a0 _) as [[r3 a3] s3|] eqn:Hvest; [|discriminate].
  destruct r3 as [e3|]; [discriminate|]. intros [= <- <-].
  exists mInfo, a0, s0, b1, b2. split; [reflexivity|]. split; [exact Halloc|].
  split; [exact Hsend|].
  exact Hvest.
Qed.

End Properties.

(** ** Runs *)

(** C2, the claim as stated fails: a fixed-price and a batch creation whose
    end time equals the block time are not rejected; each stores its auction
    and returns no error. *)
Lemma create_at_block_time_is_accepted :
  fp_EndTime (ex_fmsg ex_now ex_now) = BlockTime ex_state /\
  b_EndTime (ex_bmsg ex_now ex_now) = BlockTime ex_state /\
  (exists auction s',
     CreateFixedPriceAuction ex_selling_reserve ex_paying_reserve ex_vesting_reserve
       (ex_fmsg ex_now ex_now) ex_state = Done (Some auction, None) s' /\
     Auctions s' !! 1 = Some auction) /\
  (exists auction s',
     CreateBatchAuction ex_selling_reserve ex_paying_reserve ex_vesting_reserve
       (ex_bmsg ex_now ex_now) ex_state = Done (Some auction, None) s' /\
     Auctions s' !! 1 = Some auction).
Proof.
  split; [reflexivity|]. split; [reflexivity|]. split.
  - eexists. eexists. split; [vm_compute; reflexivity|]. vm_compute. reflexivity.
  - eexists. eexists. split; [vm_compute; reflexivity|]. vm_compute. reflexivity.
Qed.

(** Creations that end one nanosecond before the block time are rejected;
    creations that end at the block time pass the time check. *)
Lemma create_rejects_end_time_before_block_time_witness :
  (exists e,
     CreateFixedPriceAuction ex_selling_reserve ex_paying_reserve ex_vesting_reserve
       (ex_fmsg (ex_now - 2) (ex_now - 1)) ex_state = Done (None, Some e) ex_state /\
     Cause e = ErrInvalidRequest) /\
  (exists e,
     CreateBatchAuction ex_selling_reserve ex_paying_reserve ex_vesting_reserve
       (ex_bmsg (ex_now - 2) (ex_now - 1)) ex_state = Done (None, Some e) ex_state /\
     Cause e = ErrInvalidRequest) /\
  created_past_check ex_state
    (CreateFixedPriceAuction ex_selling_reserve ex_paying_reserve ex_vesting_reserve
       (ex_fmsg ex_now ex_now) ex_state) /\
  created_past_check ex_state
    (CreateBatchAuction ex_selling_reserve ex_paying_reserve ex_vesting_reserve
       (ex_bmsg ex_now ex_now) ex_state).
Proof.
  pose proof (create_rejects_end_time_before_block_time
                ex_selling_reserve ex_paying_reserve ex_vesting_reserve ex_state
                (ex_fmsg (ex_now - 2) (ex_now - 1)) (ex_bmsg (ex_now - 2) (ex_now - 1)))
    as (Hf & Hb & _ & _).
  pose proof (create_rejects_end_time_before_block_time
                ex_selling_reserve ex_paying_reserve ex_vesting_reserve ex_state
                (ex_fmsg ex_now ex_now) (ex_bmsg ex_now ex_now))
    as (_ & _ & Hf' & Hb').
  split; [apply Hf; reflexivity|]. split; [apply Hb; reflexivity|].
  split; [apply Hf'; simpl; lia | apply Hb'; simpl; lia].
Defined.

(** C9, the claim as stated fails: from a counter of 2^64 - 2 the allocator
    returns 2^64 - 1 and then 0, an id that is not greater than the one
    before it. *)
Lemma allocator_wraps_around :
  0 <= LastAuctionId ex_state_wrap < 2 ^ 64 /\
  draw_ids 2 ex_state_wrap = [18446744073709551615; 0] /\
  ~ (forall i j x y, (i < j)%nat ->
       draw_ids 2 ex_state_wrap !! i = Some x ->
       draw_ids 2 ex_state_wrap !! j = Some y -> x < y).
Proof.
  split; [simpl; lia|]. split; [reflexivity|].
  intros H. specialize (H 0%nat 1%nat 18446744073709551615 0).
  assert (18446744073709551615 < 0); [|lia].
  apply H; [lia|reflexivity|reflexivity].
Qed.

(** Three allocations on the fresh chain return 1, 2 and 3. *)
Lemma allocator_ids_increase_below_wrap_witness :
  (forall k, (k < 3)%nat ->
     draw_ids 3 ex_state !! k = Some (LastAuctionId ex_state + Z.of_nat (S k))) /\
  (forall i j x y, (i < j)%nat ->
     draw_ids 3 ex_state !! i = Some x -> draw_ids 3 ex_state !! j = Some y -> x < y) /\
  Forall (fun id => LastAuctionId ex_state < id) (draw_ids 3 ex_state).
Proof.
  apply (allocator_ids_increase_below_wrap ex_state 3); simpl; lia.
Defined.



(** On the ledger, the cancellation empties the selling reserve and gives the
    auctioneer the inventory back. *)
Lemma CancelAuction_returns_inventory :
  ledger_balance (Bank ex_state_standby) (ex_selling_reserve 1) "atom" = 1000 /\
  ledger_balance (Bank ex_state_standby) "alice" "atom" = 0 /\
  exists s',
    CancelAuction (mkMsgCancelAuction "alice" 1) ex_state_standby = Done None s' /\
    ledger_balance (Bank s') (ex_selling_reserve 1) "atom" = 0 /\
    ledger_balance (Bank s') "alice" "atom" = 1000 /\
    (GetStatus <$> Auctions s' !! 1) = Some AuctionStatusCancelled.
Proof.
  split; [vm_compute; reflexivity|]. split; [vm_compute; reflexivity|].
  eexists. split; [vm_compute; reflexivity|].
  repeat split; vm_compute; reflexivity.
Qed.

(** Adding "carol" and a second entry for "bob" to the list of auction 1
    appends both. *)
Lemma AddAllowedBidders_appends_witness :
  AddAllowedBidders 1 [] ex_state_bidder = Done (Some ErrEmptyAllowedBidders) ex_state_bidder /\
  exists a',
    state_of ex_state_bidder
      (AddAllowedBidders 1 [mkAllowedBidder "carol" (Some 7); mkAllowedBidder "bob" (Some 5)]
         ex_state_bidder)
    = with_Auctions (<[1 := a']> (Auctions ex_state_bidder)) ex_state_bidder /\
    GetAllowedBidders a'
    = [mkAllowedBidder "bob" (Some 100);
       mkAllowedBidder "carol" (Some 7); mkAllowedBidder "bob" (Some 5)].
Proof.
  destruct (AddAllowedBidders_appends ex_state_bidder 1
              (ex_standby_auction [mkAllowedBidder "bob" (Some 100)]))
    as (Hempty & _ & Hadd); [vm_compute; reflexivity|].
  split; [exact Hempty|].
  destruct (Hadd [mkAllowedBidder "carol" (Some 7); mkAllowedBidder "bob" (Some 5)]
              (state_of ex_state_bidder
                 (AddAllowedBidders 1
                    [mkAllowedBidder "carol" (Some 7); mkAllowedBidder "bob" (Some 5)]
                    ex_state_bidder)))
    as (a' & Hs & _ & Hlist); [vm_compute; reflexivity|].
  exists a'. split; [exact Hs | exact Hlist].
Defined.

(** C3, the claim as stated fails: on an auction selling 1000 with "bob"
    capped at 100, an update of the cap of "bob" to 5000 is not rejected; it
    returns no error and the stored cap exceeds the selling amount. *)
Lemma UpdateAllowedBidder_accepts_cap_above_inventory :
  (GetSellingCoin <$> Auctions ex_state_bidder !! 1) = Some (mkCoin "atom" 1000) /\
  (GetAllowedBidders <$> Auctions ex_state_bidder !! 1)
    = Some [mkAllowedBidder "bob" (Some 100)] /\
  exists s',
    UpdateAllowedBidder 1 "bob" (Some 5000) ex_state_bidder = Done None s' /\
    (GetSellingCoin <$> Auctions s' !! 1) = Some (mkCoin "atom" 1000) /\
    (GetAllowedBidders <$> Auctions s' !! 1) = Some [mkAllowedBidder "bob" (Some 5000)].
Proof.
  split; [vm_compute; reflexivity|]. split; [vm_compute; reflexivity|].
  eexists. split; [vm_compute; reflexivity|].
  split; vm_compute; reflexivity.
Qed.

(** Runs of the two operations on the caps of auction 1. *)
Lemma allowed_bidder_caps_witness :
  (exists a',
     Auctions (state_of ex_state_standby
                 (AddAllowedBidders 1 [mkAllowedBidder "bob" (Some 100)] ex_state_standby))
       !! 1 = Some a' /\
     Forall (cap_within (Amount (GetSellingCoin a'))) (GetAllowedBidders a')) /\
  UpdateAllowedBidder 1 "bob" (Some 0) ex_state_bidder
    = Done (Some ErrInvalidMaxBidAmount) ex_state_bidder /\
  UpdateAllowedBidder 1 "bob" None ex_state_bidder
    = Done (Some ErrInvalidMaxBidAmount) ex_state_bidder /\
  (exists a',
     Auctions (state_of ex_state_bidder
                 (UpdateAllowedBidder 1 "bob" (Some 5000) ex_state_bidder)) !! 1 = Some a' /\
     Forall cap_positive (GetAllowedBidders a')).
Proof.
  split; [|split; [|split]].
  - destruct (allowed_bidder_caps ex_state_standby 1
                (ex_standby_auction []))
      as (Hadd & _); [vm_compute; reflexivity|].
    destruct (Hadd [mkAllowedBidder "bob" (Some 100)]
                (state_of ex_state_standby
                   (AddAllowedBidders 1 [mkAllowedBidder "bob" (Some 100)] ex_state_standby)))
      as (a' & Ha' & _ & Hcaps); [constructor|vm_compute; reflexivity|].
    exists a'. split; [exact Ha' | exact Hcaps].
  - destruct (allowed_bidder_caps ex_state_bidder 1
                (ex_standby_auction [mkAllowedBidder "bob" (Some 100)]))
      as (_ & Hreject & _); [vm_compute; reflexivity|].
    apply Hreject. intros (v & Hv & Hpos). simpl in Hv. injection Hv as <-. lia.
  - destruct (allowed_bidder_caps ex_state_bidder 1
                (ex_standby_auction [mkAllowedBidder "bob" (Some 100)]))
      as (_ & Hreject & _); [vm_compute; reflexivity|].
    apply Hreject. intros (v & Hv & Hpos). simpl in Hv. discriminate.
  - destruct (allowed_bidder_caps ex_state_bidder 1
                (ex_standby_auction [mkAllowedBidder "bob" (Some 100)]))
      as (_ & _ & _ & Hupd); [vm_compute; reflexivity|].
    destruct (Hupd "bob"%string (Some 5000)
                (state_of ex_state_bidder
                   (UpdateAllowedBidder 1 "bob" (Some 5000) ex_state_bidder)))
      as (a' & Ha' & _ & Hcaps).
    + repeat constructor. exists 100. split; [reflexivity|lia].
    + vm_compute. reflexivity.
    + exists a'. split; [exact Ha' | exact Hcaps].
Defined.

(** The releaser on the two-tranche auction: at [ex_now] it pays and releases
    the first tranche and the auction stays in Vesting status; after the second
    release time it pays both and the auction is Finished. *)
Lemma AllocateVestingPayingCoin_releases_due_witness :
  (vq_by_auction 1
     (VestingQueues (state_of ex_state_vesting
                       (AllocateVestingPayingCoin ex_vesting_auction ex_state_vesting)))
   = [mkVestingQueue 1 "alice" (mkCoin "usd" 400) (ex_now - 10) true;
      mkVestingQueue 1 "alice" (mkCoin "usd" 600) (ex_now + 10) false] /\
   ledger_send (Bank ex_state_vesting) (ex_vesting_reserve 1) "alice" [mkCoin "usd" 400]
   = inr (Bank (state_of ex_state_vesting
                  (AllocateVestingPayingCoin ex_vesting_auction ex_state_vesting))) /\
   (GetStatus ex_vesting_auction = AuctionStatusFinished <->
    Forall (fun vq => Released vq = true)
      (vq_by_auction 1
         (VestingQueues (state_of ex_state_vesting
                           (AllocateVestingPayingCoin ex_vesting_auction ex_state_vesting)))))) /\
  (vq_by_auction 1
     (VestingQueues (state_of ex_state_vesting_late
                       (AllocateVestingPayingCoin ex_vesting_auction ex_state_vesting_late)))
   = [mkVestingQueue 1 "alice" (mkCoin "usd" 400) (ex_now - 10) true;
      mkVestingQueue 1 "alice" (mkCoin "usd" 600) (ex_now + 10) true] /\
   Auctions (state_of ex_state_vesting_late
               (AllocateVestingPayingCoin ex_vesting_auction ex_state_vesting_late)) !! 1
   = Some (SetStatus ex_vesting_auction AuctionStatusFinished)).
Proof.
  assert (Hsorted : vq_sorted ex_vesting_queue).
  { apply SSorted_cons.
    - apply SSorted_cons; [apply SSorted_nil | apply Forall_nil_2].
    - apply Forall_cons_2; [|apply Forall_nil_2].
      right. split; [reflexivity|]. simpl. lia. }
  split.
  - destruct (AllocateVestingPayingCoin_releases_due
                ex_state_vesting
                (state_of ex_state_vesting
                   (AllocateVestingPayingCoin ex_vesting_auction ex_state_vesting))
                ex_vesting_auction ex_vesting_auction
                (mkVestingQueue 1 "alice" (mkCoin "usd" 600) (ex_now + 10) false))
      as (_ & _ & Hpay & Hqueue & Hiff & _);
      [exact Hsorted | reflexivity | reflexivity | reflexivity | vm_compute; reflexivity |].
    split; [|split].
    + etransitivity; [exact Hqueue|]. vm_compute. reflexivity.
    + etransitivity; [|exact Hpay]. vm_compute. reflexivity.
    + exact Hiff.
  - destruct (AllocateVestingPayingCoin_releases_due
                ex_state_vesting_late
                (state_of ex_state_vesting_late
                   (AllocateVestingPayingCoin ex_vesting_auction ex_state_vesting_late))
                ex_vesting_auction (SetStatus ex_vesting_auction AuctionStatusFinished)
                (mkVestingQueue 1 "alice" (mkCoin "usd" 600) (ex_now + 10) false))
      as (_ & _ & _ & Hqueue & _ & _ & Hstored & _);
      [exact Hsorted | reflexivity | reflexivity | reflexivity | vm_compute; reflexivity |].
    split.
    + etransitivity; [exact Hqueue|]. vm_compute. reflexivity.
    + apply Hstored. reflexivity.
Defined.

(** With an empty vesting reserve the first tranche cannot be paid: the
    releaser returns the refusal and the sweep panics. *)
Lemma vesting_transfer_failure_panics_witness :
  (exists a' s',
     AllocateVestingPayingCoin ex_vesting_auction ex_state_vesting_empty
       = Done (Some (Wrap ErrInsufficientFunds
                       "failed to release paying coin to the auctioneer"), a') s') /\
  EndBlockerVesting ex_vesting_auction ex_state_vesting_empty
    = Panicked (Wrap ErrInsufficientFunds "failed to release paying coin to the auctioneer").
Proof.
  apply (vesting_transfer_failure_panics ex_state_vesting_empty ex_vesting_auction
           ErrInsufficientFunds).
  - reflexivity.
  - vm_compute. reflexivity.
Defined.

(** C1, the code at the failing input.  A started batch auction with
    [max_extended_round = 0] and one end time, without bids, is finished at its
    end time.  FinishBatchAuction settles it (the selling reserve is returned
    to the auctioneer, the vesting schedule is applied, the status is Vesting)
    and then goes on: it extends the round and stores the settled auction with
    a second end time, one more than [1 + max_extended_round]. *)
Theorem FinishBatchAuction_final_round_extends_again :
  (MaxExtendedRound ex_batch + 1) mod 2 ^ 32
    = Z.of_nat (length (EndTimes (BaseAuction_ ex_batch))) mod 2 ^ 32 /\
  exists ba' s',
    FinishBatchAuction ex_AccAddressFromBech32 ex_CalculateBatchAllocation
      ex_ApplyVestingSchedules (BatchAuctionI ex_batch) ex_state_batch
    = Done (BatchAuctionI ba') s' /\
    Auctions s' !! 1 = Some (BatchAuctionI ba') /\
    Status (BaseAuction_ ba') = AuctionStatusVesting /\
    EndTimes (BaseAuction_ ba') = [ex_now; ex_now + nanosPerDay] /\
    Z.of_nat (length (EndTimes (BaseAuction_ ba'))) = MaxExtendedRound ba' + 2 /\
    ledger_balance (Bank s') (ex_selling_reserve 1) "atom" = 0 /\
    ledger_balance (Bank s') "alice" "atom" = 1000 /\
    length (vq_by_auction 1 (VestingQueues s')) = 1%nat.
Proof.
  split; [reflexivity|].
  eexists. eexists. split; [vm_compute; reflexivity|].
  repeat split; vm_compute; reflexivity.
Qed.

(** ** Runs of the further properties *)

(** The vesting queue of the example is in key order. *)
Lemma ex_vesting_queue_sorted : vq_sorted ex_vesting_queue.
Proof.
  apply SSorted_cons.
  - apply SSorted_cons; [apply SSorted_nil | apply Forall_nil_2].
  - apply Forall_cons_2; [|apply Forall_nil_2].
    right. split; [reflexivity|]. simpl. lia.
Defined.



(** After the releaser has paid the first tranche at [ex_now], nothing is due:
    a run on the store it left does nothing. *)
Lemma AllocateVestingPayingCoin_nothing_due_witness :
  AllocateVestingPayingCoin ex_vesting_auction
    (state_of ex_state_vesting (AllocateVestingPayingCoin ex_vesting_auction ex_state_vesting))
  = Done (None, ex_vesting_auction)
      (state_of ex_state_vesting (AllocateVestingPayingCoin ex_vesting_auction ex_state_vesting)).
Proof.
  apply (AllocateVestingPayingCoin_nothing_due
           (state_of ex_state_vesting
              (AllocateVestingPayingCoin ex_vesting_auction ex_state_vesting))
           ex_vesting_auction).
  vm_compute. repeat constructor.
Defined.

(** After the run at [ex_now], the tranches due at a later time are the
    unreleased tranches with a release time after [ex_now]; a second run at
    [ex_now] does nothing. *)
Lemma AllocateVestingPayingCoin_pays_once_witness :
  (forall t : Time,
     filter (fun vq => ShouldRelease vq t = true)
       (vq_by_auction 1
          (VestingQueues (state_of ex_state_vesting
                            (AllocateVestingPayingCoin ex_vesting_auction ex_state_vesting))))
     = filter (fun vq => ex_now < ReleaseTime vq <= t /\ Released vq = false)
         ex_vesting_queue) /\
  AllocateVestingPayingCoin ex_vesting_auction
    (state_of ex_state_vesting (AllocateVestingPayingCoin ex_vesting_auction ex_state_vesting))
  = Done (None, ex_vesting_auction)
      (state_of ex_state_vesting (AllocateVestingPayingCoin ex_vesting_auction ex_state_vesting)).
Proof.
  apply (AllocateVestingPayingCoin_pays_once ex_state_vesting
           (state_of ex_state_vesting
              (AllocateVestingPayingCoin ex_vesting_auction ex_state_vesting))
           ex_vesting_auction ex_vesting_auction).
  - exact ex_vesting_queue_sorted.
  - vm_compute. reflexivity.
Defined.

(** With a vesting reserve of 400 and both tranches due, the first tranche is
    paid and the second is refused: the run returns the refusal, the auctioneer
    keeps the 400 and the auction store is as it was. *)
Lemma AllocateVestingPayingCoin_refused_witness :
  exists s',
    AllocateVestingPayingCoin ex_vesting_auction ex_state_vesting_short
      = Done (Some (Wrap ErrInsufficientFunds
                      "failed to release paying coin to the auctioneer"),
              ex_vesting_auction) s' /\
    Auctions s' = Auctions ex_state_vesting_short /\
    ledger_balance (Bank s') "alice" "usd" = 400 /\
    exists paid vq after e0,
      filter (fun vq => ShouldRelease vq (ex_now + 20) = true) ex_vesting_queue
        = paid ++ vq :: after /\
      pay_tranches (Bank ex_state_vesting_short) (ex_vesting_reserve 1) "alice" paid
        = inr (Bank s') /\
      SendCoins (Bank s') (ex_vesting_reserve 1) "alice" (NewCoins (PayingCoin vq)) = inl e0 /\
      Wrap ErrInsufficientFunds "failed to release paying coin to the auctioneer"
        = Wrap e0 "failed to release paying coin to the auctioneer".
Proof.
  eexists. split; [vm_compute; reflexivity|].
  match goal with
  | |- Auctions ?s' = _ /\ _ =>
      destruct (AllocateVestingPayingCoin_refused ex_state_vesting_short s'
                  ex_vesting_auction ex_vesting_auction
                  (Wrap ErrInsufficientFunds
                     "failed to release paying coin to the auctioneer"))
        as (_ & Hauc & _ & Hpaid); [vm_compute; reflexivity|]
  end.
  split; [exact Hauc|]. split; [vm_compute; reflexivity|]. exact Hpaid.
Defined.


(** The fresh chain is allocated; so is the chain after the first creation,
    which took an id that held nothing, and the chain after the cancellation of
    that auction. *)
Lemma auctions_allocated_kept_witness :
  auctions_allocated ex_state /\
  auctions_allocated ex_state_standby /\
  Auctions ex_state ⊆ Auctions ex_state_standby /\
  Auctions ex_state !! 1 = None /\
  auctions_allocated
    (state_of ex_state_standby
       (CancelAuction (mkMsgCancelAuction "alice" 1) ex_state_standby)).
Proof.
  assert (H0 : auctions_allocated ex_state).
  { intros id a Hget. change (Auctions ex_state) with (∅ : gmap Z AuctionI) in Hget.
    rewrite lookup_empty in Hget. discriminate. }
  destruct (auctions_allocated_kept ex_selling_reserve ex_paying_reserve ex_vesting_reserve
              ex_state H0) as (Hcreate & _).
  destruct (Hcreate (ex_fmsg (ex_now + 1000) (ex_now + 2000))
              (Some (ex_standby_auction []), None) ex_state_standby)
    as (H1 & Hsub & Hfresh); [simpl; lia|simpl; lia|vm_compute; reflexivity|].
  destruct (auctions_allocated_kept ex_selling_reserve ex_paying_reserve ex_vesting_reserve
              ex_state_standby H1) as (_ & _ & Hcancel & _).
  split; [exact H0|]. split; [exact H1|]. split; [exact Hsub|].
  split; [exact (Hfresh (ex_standby_auction []) eq_refl)|].
  apply (Hcancel (mkMsgCancelAuction "alice" 1) None). vm_compute. reflexivity.
Defined.



(** On auction 1, which sells 1000 and lists "bob": the addition of "carol"
    with a cap of 7 and the update of the cap of "bob" to 5000 are accepted. *)
Lemma allowed_bidders_acceptance_witness :
  ((exists s', AddAllowedBidders 1 [mkAllowedBidder "carol" (Some 7)] ex_state_bidder
                 = Done None s') <->
   [mkAllowedBidder "carol" (Some 7)] <> [] /\
   ValidateAllowedBidders [mkAllowedBidder "carol" (Some 7)] 1000 = None) /\
  ((exists s', UpdateAllowedBidder 1 "bob" (Some 5000) ex_state_bidder = Done None s') <->
   (exists v, Some 5000 = Some v /\ 0 < v) /\
   (exists ab, ab ∈ [mkAllowedBidder "bob" (Some 100)] /\ Bidder ab = "bob"%string)).
Proof.
  destruct (allowed_bidders_acceptance ex_state_bidder 1
              (ex_standby_auction [mkAllowedBidder "bob" (Some 100)]))
    as [Hadd Hupd]; [vm_compute; reflexivity|].
  split.
  - exact (Hadd [mkAllowedBidder "carol" (Some 7)]).
  - exact (Hupd "bob"%string (Some 5000)).
Defined.

(** "bob" and then "carol" are added to the list of auction 1. *)
Lemma AddAllowedBidders_twice_witness :
  exists a2,
    state_of ex_state_bidder
      (AddAllowedBidders 1 [mkAllowedBidder "carol" (Some 7)] ex_state_bidder)
    = with_Auctions (<[1 := a2]> (Auctions ex_state_standby)) ex_state_standby /\
    GetAllowedBidders a2 = [mkAllowedBidder "bob" (Some 100); mkAllowedBidder "carol" (Some 7)].
Proof.
  destruct (AddAllowedBidders_twice ex_state_standby ex_state_bidder
              (state_of ex_state_bidder
                 (AddAllowedBidders 1 [mkAllowedBidder "carol" (Some 7)] ex_state_bidder))
              1 (ex_standby_auction [])
              [mkAllowedBidder "bob" (Some 100)] [mkAllowedBidder "carol" (Some 7)])
    as (a2 & Hs & _ & Hlist & _);
    [vm_compute; reflexivity | reflexivity | vm_compute; reflexivity
    | vm_compute; reflexivity |].
  exists a2. split; [exact Hs|exact Hlist].
Defined.

(** The extension of the batch auction at its end time, by one day. *)
Lemma ExtendRound_keeps_end_times_in_order_witness :
  exists ba' s',
    ExtendRound ex_batch ex_state_batch = Done ba' s' /\
    StronglySorted Z.le (EndTimes (BaseAuction_ ba')) /\
    last (EndTimes (BaseAuction_ ba')) = Some (AddDate_days ex_now 1) /\
    ex_now <= AddDate_days ex_now 1 /\
    (0 < 1 -> Forall (fun t => t < AddDate_days ex_now 1) [ex_now]).
Proof.
  apply (ExtendRound_keeps_end_times_in_order ex_state_batch ex_batch).
  - repeat constructor.
  - repeat constructor. simpl. lia.
  - simpl. lia.
Defined.

(** The batch auction with two extended rounds allowed, without bids and
    without a matched length on record, is extended at its first end time. *)
Lemma FinishBatchAuction_first_pass_extends_witness :
  exists ba2,
    FinishBatchAuction ex_AccAddressFromBech32 ex_CalculateBatchAllocation
      ex_ApplyVestingSchedules (BatchAuctionI ex_batch_open) ex_state_batch_open
      = Done (BatchAuctionI ba2)
          (with_Auctions (<[1 := BatchAuctionI ba2]> (Auctions ex_state_batch_open))
             ex_state_batch_open) /\
    ba2 = SetEndTimes ex_batch_open [ex_now; AddDate_days ex_now 1] /\
    length (EndTimes (BaseAuction_ ba2)) = 2%nat /\
    Status (BaseAuction_ ba2) = AuctionStatusStarted.
Proof.
  apply (FinishBatchAuction_first_pass_extends ex_AccAddressFromBech32
           ex_CalculateBatchAllocation ex_ApplyVestingSchedules
           ex_batch_open ex_batch_open (mkMatchingInfo 0 ZeroDec 0 ∅ ∅)
           ex_state_batch_open ex_state_batch_open).
  - reflexivity.
  - reflexivity.
  - reflexivity.
Defined.

(** With a matched length of 4 on record and a clearing that matches nothing,
    the round is extended. *)
Lemma FinishBatchAuction_extension_rule_witness :
  FinishBatchAuction ex_AccAddressFromBech32 ex_CalculateBatchAllocation
    ex_ApplyVestingSchedules (BatchAuctionI ex_batch_open) ex_state_batch_rematch
  = extension ex_batch_open ex_state_batch_rematch.
Proof.
  destruct (FinishBatchAuction_extension_rule ex_AccAddressFromBech32
              ex_CalculateBatchAllocation ex_ApplyVestingSchedules
              ex_batch_open ex_batch_open (mkMatchingInfo 0 ZeroDec 0 ∅ ∅)
              ex_state_batch_rematch ex_state_batch_rematch)
    as (Hextend & _); [reflexivity | reflexivity | simpl; lia | reflexivity |].
  apply Hextend. vm_compute. discriminate.
Defined.

(** The last-round test on the two batch auctions of the examples. *)
Lemma in_last_round_spec_witness :
  (in_last_round ex_batch = true <->
   Z.of_nat (length (EndTimes (BaseAuction_ ex_batch))) = MaxExtendedRound ex_batch + 1) /\
  (in_last_round ex_batch_open = true <->
   Z.of_nat (length (EndTimes (BaseAuction_ ex_batch_open)))
     = MaxExtendedRound ex_batch_open + 1).
Proof.
  split.
  - apply (in_last_round_spec ex_batch); simpl; lia.
  - apply (in_last_round_spec ex_batch_open); simpl; lia.
Defined.

(** The batch auction of the examples, which allows no extended round, is in
    its last round before any extension and not after one. *)
Lemma rounds_until_last_round_witness :
  (in_last_round ex_batch = true <-> 0 = MaxExtendedRound ex_batch) /\
  (in_last_round (SetEndTimes ex_batch [ex_now; AddDate_days ex_now 1]) = true <->
   1 = MaxExtendedRound ex_batch).
Proof.
  split.
  - destruct (rounds_until_last_round (B:=Ledger) 0 ex_batch ex_batch)
      as (_ & _ & Hlast); [apply extended_O | reflexivity | simpl; lia | simpl; lia |].
    exact Hlast.
  - destruct (rounds_until_last_round (B:=Ledger) 1 ex_batch
                (SetEndTimes ex_batch [ex_now; AddDate_days ex_now 1]))
      as (_ & _ & Hlast); [ | reflexivity | simpl; lia | simpl; lia | exact Hlast].
    apply (extended_S 0 ex_batch ex_batch _ ex_state_batch
             (state_of ex_state_batch (ExtendRound ex_batch ex_state_batch)));
      [apply extended_O | vm_compute; reflexivity].
Defined.

(** The fixed-price auction 1, without bids, is finished: the selling reserve
    goes back to the auctioneer and, without a vesting schedule, the auction is
    Finished. *)
Lemma FinishFixedPriceAuction_returns_witness :
  exists mInfo a0 s0 b1 b2,
    ex_CalculateFixedPriceAllocation (ex_standby_auction []) ex_state_standby
      = Done (mInfo, a0) s0 /\
    AllocateSellingCoin ex_AccAddressFromBech32 a0 mInfo s0 = Done None (with_Bank b1 s0) /\
    SendCoins b1 (GetSellingReserveAddress a0) (GetAuctioneer a0)
      (NewCoins (NewCoin (Denom (GetSellingCoin a0))
                   (AmountOf (SpendableCoins b1 (GetSellingReserveAddress a0))
                      (Denom (GetSellingCoin a0))))) = inr b2 /\
    ex_ApplyVestingSchedules a0 (with_Bank b2 s0)
      = Done (None, SetStatus (ex_standby_auction []) AuctionStatusFinished)
          (state_of ex_state_standby
             (FinishFixedPriceAuction ex_AccAddressFromBech32 ex_CalculateFixedPriceAllocation
                ex_ApplyVestingSchedules (ex_standby_auction []) ex_state_standby)).
Proof.
  apply (FinishFixedPriceAuction_returns ex_AccAddressFromBech32
           ex_CalculateFixedPriceAllocation ex_ApplyVestingSchedules
           ex_state_standby
           (state_of ex_state_standby
              (FinishFixedPriceAuction ex_AccAddressFromBech32 ex_CalculateFixedPriceAllocation
                 ex_ApplyVestingSchedules (ex_standby_auction []) ex_state_standby))
           (ex_standby_auction []) (SetStatus (ex_standby_auction []) AuctionStatusFinished)).
  vm_compute. reflexivity.
Defined.
